(** * pytest-mocktcp: the expectation-sequencing engine of [mocktcp.py]

    A shallow embedding of [src/mocktcp.py].  The engine object
    ([MockTcpServer]) is a record that is threaded through every operation;
    the two background tasks ([evaluate_expectations] and
    [execute_server_actions]) are cooperative asyncio tasks, so the code
    between two suspension points is atomic and is modelled as one
    transition of a labelled step function.  What the transport, the timers
    and the peer do is supplied by the label of a transition. *)

From Stdlib Require Import List Bool Arith Lia ZArith.
From Stdlib.Strings Require Import String Byte.
Import ListNotations.

(** ** Bytes *)

Definition bytes := list byte.

(** [a == b] on Python [bytes]: same length and the same byte at every
    position. *)
Fixpoint bytes_eqb (a b : bytes) : bool :=
  match a, b with
  | [], [] => true
  | x :: a', y :: b' => Byte.eqb x y && bytes_eqb a' b'
  | _, _ => false
  end.

(** [s.startswith(p)]. *)
Fixpoint startswith (s p : bytes) {struct p} : bool :=
  match p, s with
  | [], _ => true
  | y :: p', x :: s' => Byte.eqb x y && startswith s' p'
  | _ :: _, [] => false
  end.

(** [s[n:]] for [0 <= n]: the slice is empty once [n] passes the end. *)
Definition slice_from (n : nat) (s : bytes) : bytes := skipn n s.

(** ** Events and exceptions

    The event classes are dataclasses deriving from [ServerActionEvent] and
    from nothing else, so an [isinstance] test against one of them is a test
    on the constructor.  [ExceptionEvent] carries an exception and
    [UnexpectedEventError] carries two events, hence the mutual definition. *)

Inductive ServerActionEvent : Type :=
| ClientConnectedEvent
| SecondClientConnectionAttempted
| ReadZeroBytes
| ClientCalledWriterWaitClosed
| NoRemainingSentData
| ExceptionEvent (exception : PyException)
| BytesReadEvent (bytes_read : bytes)
| TimeoutEvent
| UnreadSentBytes (unread_bytes : bytes)

with PyException : Type :=
| UnexpectedEventError (expected_event actual_event : ServerActionEvent)
| AssertionError
| AttributeError                         (* an attribute of [None] *)
| TimeoutError                           (* [asyncio.TimeoutError] *)
| ConnectionResetError
| IncompleteReadError (partial : bytes)  (* [readexactly] met end of stream *)
| OSError (errno : Z)                    (* any other transport failure *)
| ValueError
| PlainException (message : string)      (* [Exception(message)] *)
| CancelledError.                        (* a [BaseException] only *)

(** [isinstance(e, Exception)]: of the exceptions of the model only
    [CancelledError] derives from [BaseException] directly. *)
Definition is_Exception (e : PyException) : bool :=
  match e with
  | CancelledError => false
  | _ => true
  end.

(** What a call does: it returns a value or raises. *)
Inductive Outcome (A : Type) : Type :=
| Returns (value : A)
| Raises (e : PyException).

Arguments Returns {A} value.
Arguments Raises {A} e.

(** ** Expectation steps *)

(** The [timeout] argument of a step (a number of seconds, [1] by default).
    The model never inspects the value: whether the timer of a step has
    expired is an input of the transition that resumes the awaiting task. *)
Definition Timeout := Z.

Inductive Expectation : Type :=
| ExpectConnect (timeout : Timeout)
| ExpectClientCalledWriterWaitClosed (timeout : Timeout)
| ExpectBytes (expected_bytes : bytes) (timeout : Timeout)
| ExpectReadZeroBytes (timeout : Timeout)
| ExpectClientReadAllSentBytes (timeout : Timeout)
| SendBytes (data : bytes).

(** ** The engine instance *)

(** The stream objects handed to the connection callback; only their
    identity matters. *)
Definition Stream := nat.

Record MockTcpServer : Type := mkServer {
  connected : bool;
  errors : list PyException;
  join_already_failed : bool;
  stopped : bool;
  server_event_queue : list ServerActionEvent;
  server_actions : list Expectation;      (* bound [server_action] methods *)
  expecations_queue : list Expectation;
  unfinished_tasks : nat;                 (* counter of [expecations_queue] *)
  reader : option Stream;
  writer : option Stream;
  client_called_writer_waited_closed : bool;
  data_read_by_client : bytes;
  data_sent_from_server : bytes
}.

(** [MockTcpServer.__init__]. *)
Definition new_server : MockTcpServer :=
  {| connected := false;
     errors := [];
     join_already_failed := false;
     stopped := false;
     server_event_queue := [];
     server_actions := [];
     expecations_queue := [];
     unfinished_tasks := 0;
     reader := None;
     writer := None;
     client_called_writer_waited_closed := false;
     data_read_by_client := [];
     data_sent_from_server := [] |}.

Definition set_connection (r w : Stream) (s : MockTcpServer) : MockTcpServer :=
  mkServer true (errors s) (join_already_failed s) (stopped s)
    (server_event_queue s) (server_actions s) (expecations_queue s)
    (unfinished_tasks s) (Some r) (Some w)
    (client_called_writer_waited_closed s) (data_read_by_client s)
    (data_sent_from_server s).

Definition set_errors (es : list PyException) (s : MockTcpServer) : MockTcpServer :=
  mkServer (connected s) es (join_already_failed s) (stopped s)
    (server_event_queue s) (server_actions s) (expecations_queue s)
    (unfinished_tasks s) (reader s) (writer s)
    (client_called_writer_waited_closed s) (data_read_by_client s)
    (data_sent_from_server s).

Definition set_join_already_failed (b : bool) (s : MockTcpServer) : MockTcpServer :=
  mkServer (connected s) (errors s) b (stopped s)
    (server_event_queue s) (server_actions s) (expecations_queue s)
    (unfinished_tasks s) (reader s) (writer s)
    (client_called_writer_waited_closed s) (data_read_by_client s)
    (data_sent_from_server s).

Definition set_server_event_queue (q : list ServerActionEvent) (s : MockTcpServer)
  : MockTcpServer :=
  mkServer (connected s) (errors s) (join_already_failed s) (stopped s)
    q (server_actions s) (expecations_queue s)
    (unfinished_tasks s) (reader s) (writer s)
    (client_called_writer_waited_closed s) (data_read_by_client s)
    (data_sent_from_server s).

Definition set_server_actions (q : list Expectation) (s : MockTcpServer)
  : MockTcpServer :=
  mkServer (connected s) (errors s) (join_already_failed s) (stopped s)
    (server_event_queue s) q (expecations_queue s)
    (unfinished_tasks s) (reader s) (writer s)
    (client_called_writer_waited_closed s) (data_read_by_client s)
    (data_sent_from_server s).

Definition set_expecations_queue (q : list Expectation) (n : nat) (s : MockTcpServer)
  : MockTcpServer :=
  mkServer (connected s) (errors s) (join_already_failed s) (stopped s)
    (server_event_queue s) (server_actions s) q
    n (reader s) (writer s)
    (client_called_writer_waited_closed s) (data_read_by_client s)
    (data_sent_from_server s).

Definition set_client_called_writer_waited_closed (b : bool) (s : MockTcpServer)
  : MockTcpServer :=
  mkServer (connected s) (errors s) (join_already_failed s) (stopped s)
    (server_event_queue s) (server_actions s) (expecations_queue s)
    (unfinished_tasks s) (reader s) (writer s)
    b (data_read_by_client s)
    (data_sent_from_server s).

Definition set_data_read_by_client (d : bytes) (s : MockTcpServer) : MockTcpServer :=
  mkServer (connected s) (errors s) (join_already_failed s) (stopped s)
    (server_event_queue s) (server_actions s) (expecations_queue s)
    (unfinished_tasks s) (reader s) (writer s)
    (client_called_writer_waited_closed s) d
    (data_sent_from_server s).

Definition set_data_sent_from_server (d : bytes) (s : MockTcpServer) : MockTcpServer :=
  mkServer (connected s) (errors s) (join_already_failed s) (stopped s)
    (server_event_queue s) (server_actions s) (expecations_queue s)
    (unfinished_tasks s) (reader s) (writer s)
    (client_called_writer_waited_closed s) (data_read_by_client s)
    d.

Definition set_stopped (b : bool) (s : MockTcpServer) : MockTcpServer :=
  mkServer (connected s) (errors s) (join_already_failed s) b
    (server_event_queue s) (server_actions s) (expecations_queue s)
    (unfinished_tasks s) (reader s) (writer s)
    (client_called_writer_waited_closed s) (data_read_by_client s)
    (data_sent_from_server s).

(** [server_event_queue.put_nowait(ev)]. *)
Definition put_event (ev : ServerActionEvent) (s : MockTcpServer) : MockTcpServer :=
  set_server_event_queue (server_event_queue s ++ [ev]) s.

(** [expecations_queue.put_nowait(e)]: the queue counts the item as
    unfinished until [task_done] is called for it. *)
Definition put_expectation (e : Expectation) (s : MockTcpServer) : MockTcpServer :=
  set_expecations_queue (expecations_queue s ++ [e]) (S (unfinished_tasks s)) s.

(** [MockTcpServer.error]. *)
Definition error (e : PyException) (s : MockTcpServer) : MockTcpServer :=
  set_errors (errors s ++ [e]) s.

(** ** The transport, as seen by one action

    [read_result] is what awaiting the pending read of an action under
    [asyncio.wait_for] does ([readexactly(n)] for [ExpectBytes], [read()] for
    [ExpectReadZeroBytes]); [write_result] is what [writer.write(data)]
    does. *)
Record Transport : Type := mkTransport {
  read_result : Outcome bytes;
  write_result : Outcome unit
}.

(** [try: body  except cls: handler]: [handler e] is [Some r] when a clause
    catches [e]. *)
Definition try_except {A : Type} (body : Outcome A)
    (handler : PyException -> option (Outcome A)) : Outcome A :=
  match body with
  | Returns v => Returns v
  | Raises e => match handler e with
                | Some r => r
                | None => Raises e
                end
  end.

(** [self.server.reader.<method>(...)]: attribute access on [None] raises
    before anything is awaited. *)
Definition reader_call (io : Transport) (s : MockTcpServer) : Outcome bytes :=
  match reader s with
  | None => Raises AttributeError
  | Some _ => read_result io
  end.

Definition writer_call (io : Transport) (s : MockTcpServer) : Outcome unit :=
  match writer s with
  | None => Raises AttributeError
  | Some _ => write_result io
  end.

(** ** [server_action] of each step class

    An action returns an event, or [None], or raises; it may update the
    engine. *)
Definition ActionResult : Type := Outcome (option ServerActionEvent) * MockTcpServer.

Definition ExpectConnect_server_action (s : MockTcpServer) : ActionResult :=
  (Returns None, s).

Definition ExpectClientCalledWriterWaitClosed_server_action (s : MockTcpServer)
  : ActionResult :=
  (Returns None, s).

Definition ExpectBytes_server_action (expected_bytes : bytes) (timeout : Timeout)
    (io : Transport) (s : MockTcpServer) : ActionResult :=
  (try_except
     (match reader_call io s with
      | Returns received => Returns (Some (BytesReadEvent received))
      | Raises e => Raises e
      end)
     (fun e => match e with
               | TimeoutError => Some (Returns (Some TimeoutEvent))
               | _ => None
               end),
   s).

Definition ExpectReadZeroBytes_server_action (timeout : Timeout)
    (io : Transport) (s : MockTcpServer) : ActionResult :=
  (try_except
     (match reader_call io s with
      | Returns received =>
          if List.length received =? 0
          then Returns (Some ReadZeroBytes)
          else Returns (Some (BytesReadEvent received))
      | Raises e => Raises e
      end)
     (fun e => match e with
               | TimeoutError => Some (Returns (Some TimeoutEvent))
               | ConnectionResetError => Some (Returns (Some ReadZeroBytes))
               | _ => None
               end),
   s).

(** The body of the [try] of [ExpectClientReadAllSentBytes.server_action]:
    it reads the two ledgers and awaits nothing. *)
Definition compare_ledgers (s : MockTcpServer) : Outcome (option ServerActionEvent) :=
  let sent_bytes := data_sent_from_server s in
  let read_bytes := data_read_by_client s in
  if bytes_eqb read_bytes sent_bytes
  then Returns (Some NoRemainingSentData)
  else if startswith sent_bytes read_bytes
       then Returns (Some (UnreadSentBytes
                             (slice_from (List.length read_bytes) sent_bytes)))
       else Raises AssertionError.

Definition ExpectClientReadAllSentBytes_server_action (timeout : Timeout)
    (s : MockTcpServer) : ActionResult :=
  (try_except
     (compare_ledgers s)
     (fun e => match e with
               | TimeoutError => Some (Returns (Some TimeoutEvent))
               | _ => None
               end),
   s).

(** The [try] of [SendBytes.server_action] catches [BaseException]: whatever
    the write raises is logged and dropped, and the ledger is extended only
    when the write returned. *)
Definition SendBytes_server_action (data : bytes) (io : Transport)
    (s : MockTcpServer) : ActionResult :=
  match writer_call io s with
  | Returns _ =>
      (Returns None,
       set_data_sent_from_server (data_sent_from_server s ++ data) s)
  | Raises _ => (Returns None, s)
  end.

(** Dispatch on the class of the step. *)
Definition server_action (e : Expectation) (io : Transport) (s : MockTcpServer)
  : ActionResult :=
  match e with
  | ExpectConnect _ => ExpectConnect_server_action s
  | ExpectClientCalledWriterWaitClosed _ =>
      ExpectClientCalledWriterWaitClosed_server_action s
  | ExpectBytes expected_bytes timeout =>
      ExpectBytes_server_action expected_bytes timeout io s
  | ExpectReadZeroBytes timeout => ExpectReadZeroBytes_server_action timeout io s
  | ExpectClientReadAllSentBytes timeout =>
      ExpectClientReadAllSentBytes_server_action timeout s
  | SendBytes data => SendBytes_server_action data io s
  end.

(** ** [evaluate] of each step class *)

(** An awaited call either is still suspended or has completed. *)
Inductive Await (A : Type) : Type :=
| Pending
| Done (result : A).

Arguments Pending {A}.
Arguments Done {A} result.

Definition EvaluateResult : Type := Await (Outcome unit * MockTcpServer).

(** [await server_event_queue.get()]: suspended while the queue is empty. *)
Definition get_event (s : MockTcpServer)
  : Await (ServerActionEvent * MockTcpServer) :=
  match server_event_queue s with
  | [] => Pending
  | ev :: rest => Done (ev, set_server_event_queue rest s)
  end.

(** The tests that follow the [get] in each [evaluate]. *)
Definition ExpectConnect_check (next_event : ServerActionEvent) : Outcome unit :=
  match next_event with
  | ClientConnectedEvent => Returns tt
  | _ => Raises (UnexpectedEventError ClientConnectedEvent next_event)
  end.

Definition ExpectClientCalledWriterWaitClosed_check (next_event : ServerActionEvent)
  : Outcome unit :=
  match next_event with
  | ClientCalledWriterWaitClosed => Returns tt
  | _ => Raises (UnexpectedEventError ClientCalledWriterWaitClosed next_event)
  end.

Definition ExpectBytes_check (expected_bytes : bytes) (next_event : ServerActionEvent)
  : Outcome unit :=
  match next_event with
  | BytesReadEvent bytes_read =>
      if negb (bytes_eqb bytes_read expected_bytes)
      then Raises (UnexpectedEventError (BytesReadEvent expected_bytes) next_event)
      else Returns tt
  | _ => Raises (UnexpectedEventError (BytesReadEvent expected_bytes) next_event)
  end.

Definition ExpectReadZeroBytes_check (next_event : ServerActionEvent) : Outcome unit :=
  match next_event with
  | ReadZeroBytes => Returns tt
  | _ => Raises (UnexpectedEventError ReadZeroBytes next_event)
  end.

Definition ExpectClientReadAllSentBytes_check (next_event : ServerActionEvent)
  : Outcome unit :=
  match next_event with
  | NoRemainingSentData => Returns tt
  | _ => Raises (UnexpectedEventError NoRemainingSentData next_event)
  end.

(** [asyncio.wait_for(call, timeout)] with a [timeout] that is not positive
    does not let [call] run: it cancels it at once and raises
    [TimeoutError], whatever [call] would have found. *)
Definition expires_at_once (timeout : Timeout) : bool := (timeout <=? 0)%Z.

(** [ExpectConnect.evaluate]: the [get] races the timer of the step; when the
    timer wins the step makes a [TimeoutEvent] of its own, and the event
    queue is left as it is. *)
Definition ExpectConnect_evaluate (timeout : Timeout) (timed_out : bool)
    (s : MockTcpServer) : EvaluateResult :=
  if expires_at_once timeout
  then Done (ExpectConnect_check TimeoutEvent, s)
  else match get_event s with
       | Done (next_event, s') => Done (ExpectConnect_check next_event, s')
       | Pending =>
           if timed_out then Done (ExpectConnect_check TimeoutEvent, s) else Pending
       end.

(** [ExpectClientCalledWriterWaitClosed.evaluate]: waits for the latch, in a
    race with the timer of the step. *)
Definition ExpectClientCalledWriterWaitClosed_evaluate (timeout : Timeout)
    (timed_out : bool) (s : MockTcpServer) : EvaluateResult :=
  if expires_at_once timeout
  then Done (ExpectClientCalledWriterWaitClosed_check TimeoutEvent, s)
  else if client_called_writer_waited_closed s
       then Done (ExpectClientCalledWriterWaitClosed_check
                    ClientCalledWriterWaitClosed, s)
       else if timed_out
            then Done (ExpectClientCalledWriterWaitClosed_check TimeoutEvent, s)
            else Pending.

Definition ExpectBytes_evaluate (expected_bytes : bytes) (s : MockTcpServer)
  : EvaluateResult :=
  match get_event s with
  | Done (next_event, s') => Done (ExpectBytes_check expected_bytes next_event, s')
  | Pending => Pending
  end.

Definition ExpectReadZeroBytes_evaluate (s : MockTcpServer) : EvaluateResult :=
  match get_event s with
  | Done (next_event, s') => Done (ExpectReadZeroBytes_check next_event, s')
  | Pending => Pending
  end.

Definition ExpectClientReadAllSentBytes_evaluate (s : MockTcpServer) : EvaluateResult :=
  match get_event s with
  | Done (next_event, s') => Done (ExpectClientReadAllSentBytes_check next_event, s')
  | Pending => Pending
  end.

Definition SendBytes_evaluate (s : MockTcpServer) : EvaluateResult :=
  Done (Returns tt, s).

Definition evaluate (e : Expectation) (timed_out : bool) (s : MockTcpServer)
  : EvaluateResult :=
  match e with
  | ExpectConnect timeout => ExpectConnect_evaluate timeout timed_out s
  | ExpectClientCalledWriterWaitClosed timeout =>
      ExpectClientCalledWriterWaitClosed_evaluate timeout timed_out s
  | ExpectBytes expected_bytes _ => ExpectBytes_evaluate expected_bytes s
  | ExpectReadZeroBytes _ => ExpectReadZeroBytes_evaluate s
  | ExpectClientReadAllSentBytes _ => ExpectClientReadAllSentBytes_evaluate s
  | SendBytes _ => SendBytes_evaluate s
  end.

(** ** The interpreter

    The messages are f-strings; how Python prints a [bytes] value and an
    exception inside them is left to [repr_bytes] and [str_exception]. *)
Section Interpreter.

Variable repr_bytes : bytes -> string.
Variable str_exception : PyException -> string.

Definition cannot_interpret (exception : PyException) : string :=
  ("Cannot interpret " ++ str_exception exception)%string.

Definition interpret_error (exception : PyException) : string :=
  match exception with
  | UnexpectedEventError expected_event actual_event =>
      match expected_event with
      | ReadZeroBytes =>
          match actual_event with
          | SecondClientConnectionAttempted =>
              "While waiting for client to disconnect a second connection was attempted"%string
          | TimeoutEvent =>
              "Timed out waiting for client to disconnect. Remember to call `writer.close()`."%string
          | BytesReadEvent bytes_read =>
              ("Received unexpected data while waiting for client to disconnect. Data is "
                 ++ repr_bytes bytes_read ++ ".")%string
          | _ => cannot_interpret exception
          end
      | ClientConnectedEvent =>
          match actual_event with
          | TimeoutEvent => "Timed out waiting for client to connect"%string
          | _ => cannot_interpret exception
          end
      | BytesReadEvent expected =>
          match actual_event with
          | TimeoutEvent =>
              ("Timed out waiting for " ++ repr_bytes expected)%string
          | ClientConnectedEvent =>
              ("Missing `expect_connect()` before `expect_bytes("
                 ++ repr_bytes expected ++ ")`")%string
          | BytesReadEvent bytes_read =>
              ("Expected to read " ++ repr_bytes expected
                 ++ " but actually read " ++ repr_bytes bytes_read)%string
          | _ => cannot_interpret exception
          end
      | ClientCalledWriterWaitClosed =>
          match actual_event with
          | TimeoutEvent =>
              "Timed out waiting for client to call `await writer.wait_closed()`."%string
          | _ => cannot_interpret exception
          end
      | NoRemainingSentData =>
          match actual_event with
          | UnreadSentBytes unread_bytes =>
              ("There is data sent by server that was not read by client: unread_bytes="
                 ++ repr_bytes unread_bytes ++ ".")%string
          | _ => cannot_interpret exception
          end
      | _ => cannot_interpret exception
      end
  | _ => cannot_interpret exception
  end.

(** ** [MockTcpServer.join]

    [await expecations_queue.join()] suspends the caller until the counter
    of unfinished items is zero. *)
Inductive JoinResult : Type :=
| JoinWaiting
| JoinReturned (s : MockTcpServer)
| JoinRaised (e : PyException) (s : MockTcpServer).

Definition join (s : MockTcpServer) : JoinResult :=
  if join_already_failed s then JoinReturned s
  else if unfinished_tasks s =? 0
       then match errors s with
            | [] => JoinReturned s
            | first :: _ =>
                JoinRaised (PlainException (interpret_error first))
                           (set_join_already_failed true s)
            end
       else JoinWaiting.

End Interpreter.

(** ** The declaration API *)

Definition check_not_stopped (s : MockTcpServer) : Outcome unit :=
  if stopped s then Raises (PlainException "Fixture is stopped") else Returns tt.

Definition expect_connect (timeout : Timeout) (s : MockTcpServer)
  : Outcome unit * MockTcpServer :=
  match check_not_stopped s with
  | Raises e => (Raises e, s)
  | Returns _ => (Returns tt, put_expectation (ExpectConnect timeout) s)
  end.

Definition expect_bytes (expected_bytes : bytes) (timeout : Timeout)
    (s : MockTcpServer) : Outcome unit * MockTcpServer :=
  match check_not_stopped s with
  | Raises e => (Raises e, s)
  | Returns _ =>
      (Returns tt, put_expectation (ExpectBytes expected_bytes timeout) s)
  end.

Definition send_bytes (data : bytes) (s : MockTcpServer)
  : Outcome unit * MockTcpServer :=
  match check_not_stopped s with
  | Raises e => (Raises e, s)
  | Returns _ => (Returns tt, put_expectation (SendBytes data) s)
  end.

Definition expect_disconnect (timeout : Timeout) (s : MockTcpServer)
  : Outcome unit * MockTcpServer :=
  match check_not_stopped s with
  | Raises e => (Raises e, s)
  | Returns _ =>
      (Returns tt,
       put_expectation (ExpectClientReadAllSentBytes timeout)
         (put_expectation (ExpectClientCalledWriterWaitClosed timeout)
            (put_expectation (ExpectReadZeroBytes timeout) s)))
  end.

(** ** Entry points driven from outside the engine *)

(** The callback given to [asyncio.start_server] in
    [start_accepting_connections]. *)
Definition handle_client_connection (reader' writer' : Stream) (s : MockTcpServer)
  : MockTcpServer :=
  if connected s
  then put_event SecondClientConnectionAttempted s
  else put_event ClientConnectedEvent (set_connection reader' writer' s).

(** [client_read]: the peer's patched [read] returned [data]. *)
Definition client_read (data : bytes) (s : MockTcpServer) : MockTcpServer :=
  set_data_read_by_client (data_read_by_client s ++ data) s.

(** [client_writer_wait_closed]: sets the latch. *)
Definition client_writer_wait_closed (s : MockTcpServer) : MockTcpServer :=
  set_client_called_writer_waited_closed true s.

(** ** The scheduler

    [start] creates the two tasks.  Each is an endless loop; a task is
    either suspended at the [get] that opens an iteration, or suspended
    inside the call it awaits, or has ended with an exception nothing
    caught.  An awaited call that completes without suspending ([evaluate]
    of [SendBytes], a [get] on a queue that has an item) runs in the same
    turn as the code before it; the transitions below split every
    iteration at its [await] all the same, so each run of the program is a
    run of the model, and the model has some more. *)
Inductive TaskState : Type :=
| AtGet
| Awaiting (expectation : Expectation)
| Terminated (e : PyException).

Record System : Type := mkSystem {
  server : MockTcpServer;
  evaluator_task : TaskState;
  server_action_task : TaskState
}.

(** [MockTcpServer.start] on a new engine. *)
Definition start : System :=
  {| server := new_server; evaluator_task := AtGet; server_action_task := AtGet |}.

(** [expecations_queue.task_done()]; raises [ValueError] when called more
    often than items were put. *)
Definition task_done (s : MockTcpServer) : Outcome MockTcpServer :=
  match unfinished_tasks s with
  | 0 => Raises ValueError
  | S n => Returns (set_expecations_queue (expecations_queue s) n s)
  end.

(** The end of an iteration of [evaluate_expectations]. *)
Definition evaluator_task_done (sys : System) (s : MockTcpServer) : System :=
  match task_done s with
  | Returns s' => mkSystem s' AtGet (server_action_task sys)
  | Raises e => mkSystem s (Terminated e) (server_action_task sys)
  end.

(** [evaluate_expectations], from the [get] that returns an expectation to
    the [await] of its [evaluate] (or, when there are errors, to the end of
    the iteration). *)
Definition evaluate_expectations_get (sys : System) : option System :=
  match evaluator_task sys, expecations_queue (server sys) with
  | AtGet, expectation :: rest =>
      let s := set_expecations_queue rest (unfinished_tasks (server sys))
                 (server sys) in
      match errors s with
      | [] =>
          Some (mkSystem
                  (set_server_actions (server_actions s ++ [expectation]) s)
                  (Awaiting expectation) (server_action_task sys))
      | _ :: _ => Some (evaluator_task_done sys s)
      end
  | _, _ => None
  end.

(** [evaluate_expectations], from the completion of the awaited [evaluate]
    to the next [get]. *)
Definition evaluate_expectations_resume (timed_out : bool) (sys : System)
  : option System :=
  match evaluator_task sys with
  | Awaiting expectation =>
      match evaluate expectation timed_out (server sys) with
      | Pending => None
      | Done (Returns _, s) => Some (evaluator_task_done sys s)
      | Done (Raises e, s) =>
          if is_Exception e
          then Some (evaluator_task_done sys (error e s))
          else Some (mkSystem s (Terminated e) (server_action_task sys))
      end
  | _ => None
  end.

(** [execute_server_actions], from the [get] that returns an action to the
    [await] of the action (or, when there are errors, to the next [get]). *)
Definition execute_server_actions_get (sys : System) : option System :=
  match server_action_task sys, server_actions (server sys) with
  | AtGet, action :: rest =>
      let s := set_server_actions rest (server sys) in
      match errors s with
      | [] => Some (mkSystem s (evaluator_task sys) (Awaiting action))
      | _ :: _ => Some (mkSystem s (evaluator_task sys) AtGet)
      end
  | _, _ => None
  end.

(** [execute_server_actions], from the completion of the awaited action to
    the next [get]. *)
Definition execute_server_actions_resume (io : Transport) (sys : System)
  : option System :=
  match server_action_task sys with
  | Awaiting action =>
      match server_action action io (server sys) with
      | (Returns None, s) => Some (mkSystem s (evaluator_task sys) AtGet)
      | (Returns (Some server_event), s) =>
          Some (mkSystem (put_event server_event s) (evaluator_task sys) AtGet)
      | (Raises e, s) =>
          if is_Exception e
          then Some (mkSystem (put_event (ExceptionEvent e) (error e s))
                              (evaluator_task sys) AtGet)
          else Some (mkSystem s (evaluator_task sys) (Terminated e))
      end
  | _ => None
  end.

(** Everything that can happen to a started engine between two suspension
    points. *)
Inductive Label : Type :=
| CallExpectConnect (timeout : Timeout)
| CallExpectBytes (expected_bytes : bytes) (timeout : Timeout)
| CallSendBytes (data : bytes)
| CallExpectDisconnect (timeout : Timeout)
| ClientConnects (reader' writer' : Stream)
| ClientReads (data : bytes)
| ClientWaitsClosed
| EvaluatorGets
| EvaluatorResumes (timed_out : bool)
| ExecutorGets
| ExecutorResumes (io : Transport).

Definition with_server (sys : System) (s : MockTcpServer) : System :=
  mkSystem s (evaluator_task sys) (server_action_task sys).

(** One transition; [None] when the label is not enabled (the task it
    names is not at that point, or what it waits for is not there). *)
Definition step (l : Label) (sys : System) : option System :=
  match l with
  | CallExpectConnect timeout =>
      Some (with_server sys (snd (expect_connect timeout (server sys))))
  | CallExpectBytes expected_bytes timeout =>
      Some (with_server sys (snd (expect_bytes expected_bytes timeout (server sys))))
  | CallSendBytes data =>
      Some (with_server sys (snd (send_bytes data (server sys))))
  | CallExpectDisconnect timeout =>
      Some (with_server sys (snd (expect_disconnect timeout (server sys))))
  | ClientConnects reader' writer' =>
      Some (with_server sys (handle_client_connection reader' writer' (server sys)))
  | ClientReads data => Some (with_server sys (client_read data (server sys)))
  | ClientWaitsClosed => Some (with_server sys (client_writer_wait_closed (server sys)))
  | EvaluatorGets => evaluate_expectations_get sys
  | EvaluatorResumes timed_out => evaluate_expectations_resume timed_out sys
  | ExecutorGets => execute_server_actions_get sys
  | ExecutorResumes io => execute_server_actions_resume io sys
  end.

(** A run: the transitions of a list of labels, in order. *)
Fixpoint run (ls : list Label) (sys : System) : option System :=
  match ls with
  | [] => Some sys
  | l :: ls' =>
      match step l sys with
      | Some sys' => run ls' sys'
      | None => None
      end
  end.

(** The states a started engine can be in. *)
Definition reachable (sys : System) : Prop :=
  exists ls, run ls start = Some sys.

(** ** Observations on a run *)

(** The payload a transition declares for sending. *)
Definition declared_send (l : Label) (sys : System) : list bytes :=
  match l with
  | CallSendBytes data => if stopped (server sys) then [] else [data]
  | _ => []
  end.

(** The [SendBytes] action a transition performs: its payload, and whether
    the write returned. *)
Definition performed_send (l : Label) (sys : System) : list (bytes * bool) :=
  match l, server_action_task sys with
  | ExecutorResumes io, Awaiting (SendBytes data) =>
      [(data, match writer_call io (server sys) with
              | Returns _ => true
              | Raises _ => false
              end)]
  | _, _ => []
  end.

Fixpoint declared_sends (ls : list Label) (sys : System) : list bytes :=
  match ls with
  | [] => []
  | l :: ls' =>
      match step l sys with
      | Some sys' => declared_send l sys ++ declared_sends ls' sys'
      | None => []
      end
  end.

Fixpoint performed_sends (ls : list Label) (sys : System) : list (bytes * bool) :=
  match ls with
  | [] => []
  | l :: ls' =>
      match step l sys with
      | Some sys' => performed_send l sys ++ performed_sends ls' sys'
      | None => []
      end
  end.

(** The payloads whose write returned. *)
Definition written (sends : list (bytes * bool)) : list bytes :=
  map fst (filter snd sends).

(** The payload of a step, when it is a [SendBytes]. *)
Definition send_payload (e : Expectation) : list bytes :=
  match e with
  | SendBytes data => [data]
  | _ => []
  end.

(** The payloads still to be written, in the order in which the executor
    will come to them: the action it is running, the action queue, the
    expectation queue. *)
Definition pending_sends (sys : System) : list bytes :=
  match server_action_task sys with
  | Awaiting a => send_payload a
  | _ => []
  end
  ++ flat_map send_payload (server_actions (server sys))
  ++ flat_map send_payload (expecations_queue (server sys)).

(** Every declared step has been processed and every action has run. *)
Definition all_done (sys : System) : Prop :=
  unfinished_tasks (server sys) = 0
  /\ server_actions (server sys) = []
  /\ server_action_task sys = AtGet.

(** The evaluator's turns that empty the expectation queue once there are
    errors: the pending [evaluate] (if any) completes, its timer having
    expired if it has one, and then one [get] per queued step. *)
Definition drain_schedule (sys : System) : list Label :=
  match evaluator_task sys with
  | Awaiting _ => [EvaluatorResumes true]
  | _ => []
  end ++ repeat EvaluatorGets (List.length (expecations_queue (server sys))).

(** The steps whose [evaluate] waits for the event queue with no timer. *)
Definition waits_for_event (e : Expectation) : bool :=
  match e with
  | ExpectBytes _ _ | ExpectReadZeroBytes _ | ExpectClientReadAllSentBytes _ => true
  | _ => false
  end.

(** The invariant of the scheduler: the counter of the expectation queue
    counts the queued steps and the one being evaluated; and an [evaluate]
    that waits for the event queue finds an event there once there are
    errors. *)
Definition scheduler_invariant (sys : System) : Prop :=
  match evaluator_task sys with
  | AtGet =>
      unfinished_tasks (server sys) = List.length (expecations_queue (server sys))
  | Awaiting e =>
      unfinished_tasks (server sys)
        = S (List.length (expecations_queue (server sys)))
      /\ (waits_for_event e = true ->
          errors (server sys) <> [] ->
          server_event_queue (server sys) <> [])
  | Terminated _ => False
  end.

(** ** Teardown *)

(** [task.cancel()] followed by [await task] under
    [except asyncio.CancelledError: pass].  A task that is suspended is
    cancelled at its [await]; nothing in the two loops catches the
    [CancelledError], so the task ends cancelled and the [await] raises the
    [CancelledError] that [stop] drops.  A task that had already ended with
    another exception hands that exception to whoever awaits it. *)
Definition cancel_and_await (task : TaskState) : Outcome TaskState :=
  match task with
  | AtGet | Awaiting _ => Returns (Terminated CancelledError)
  | Terminated CancelledError => Returns task
  | Terminated e => Raises e
  end.

(** The [finally] block of [MockTcpServer.stop]; [pending] is what the
    [try] block left to be returned or re-raised.  An exception raised
    inside the block replaces it and ends the block there. *)
Definition stop_finally (pending : Outcome unit) (sys : System)
  : Outcome unit * System :=
  let s := set_stopped true (server sys) in
  match cancel_and_await (evaluator_task sys) with
  | Raises e => (Raises e, mkSystem s (evaluator_task sys) (server_action_task sys))
  | Returns evaluator =>
      match cancel_and_await (server_action_task sys) with
      | Raises e => (Raises e, mkSystem s evaluator (server_action_task sys))
      | Returns executor => (pending, mkSystem s evaluator executor)
      end
  end.

(** [MockTcpServer.stop]: suspended while its [join] is. *)
Definition stop (repr_bytes : bytes -> string) (str_exception : PyException -> string)
    (sys : System) : Await (Outcome unit * System) :=
  match join repr_bytes str_exception (server sys) with
  | JoinWaiting => Pending
  | JoinReturned s =>
      Done (stop_finally (Returns tt)
              (mkSystem s (evaluator_task sys) (server_action_task sys)))
  | JoinRaised e s =>
      Done (stop_finally (Raises e)
              (mkSystem s (evaluator_task sys) (server_action_task sys)))
  end.

(** The states of a started engine whose [join] may have been called
    along the way: a [join] that returns leaves the engine as it is, a
    [join] that raises leaves its flag behind. *)
Inductive engine_state : System -> Prop :=
| engine_started : engine_state start
| engine_step : forall l sys sys',
    engine_state sys -> step l sys = Some sys' -> engine_state sys'
| engine_join_raised : forall repr_bytes str_exception sys e s',
    engine_state sys ->
    join repr_bytes str_exception (server sys) = JoinRaised e s' ->
    engine_state (with_server sys s').

(** The body of the loop of [MockTcpServerFactory.stop], for one server:
    [expect_disconnect()] with its default timeout unless a [join] has
    already failed, then [stop]; whatever this raises is what the factory
    appends to its list of errors.  The result is read at the moment of the
    call: it is [Pending] while the [stop] is suspended. *)
Definition factory_stop_server (repr_bytes : bytes -> string)
    (str_exception : PyException -> string) (sys : System)
  : Await (Outcome unit * System) :=
  if join_already_failed (server sys)
  then stop repr_bytes str_exception sys
  else match expect_disconnect 1%Z (server sys) with
       | (Raises e, s) => Done (Raises e, with_server sys s)
       | (Returns _, s) => stop repr_bytes str_exception (with_server sys s)
       end.

(** ** The order of the queues *)

(** What a list-valued observation of the transitions gives along a run. *)
Fixpoint observe {A : Type} (f : Label -> System -> list A)
    (ls : list Label) (sys : System) : list A :=
  match ls with
  | [] => []
  | l :: ls' =>
      match step l sys with
      | Some sys' => f l sys ++ observe f ls' sys'
      | None => []
      end
  end.

(** The bytes a transition hands to the peer through its patched [read]. *)
Definition client_reads (l : Label) (sys : System) : list bytes :=
  match l with
  | ClientReads data => [data]
  | _ => []
  end.

(** The steps a call of the declaration API puts on the expectation
    queue. *)
Definition declared_steps (l : Label) (sys : System) : list Expectation :=
  if stopped (server sys) then []
  else match l with
       | CallExpectConnect timeout => [ExpectConnect timeout]
       | CallExpectBytes expected_bytes timeout => [ExpectBytes expected_bytes timeout]
       | CallSendBytes data => [SendBytes data]
       | CallExpectDisconnect timeout =>
           [ExpectReadZeroBytes timeout;
            ExpectClientCalledWriterWaitClosed timeout;
            ExpectClientReadAllSentBytes timeout]
       | _ => []
       end.

(** The step the evaluator takes off the expectation queue. *)
Definition taken_step (l : Label) (sys : System) : list Expectation :=
  match l, evaluator_task sys, expecations_queue (server sys) with
  | EvaluatorGets, AtGet, expectation :: _ => [expectation]
  | _, _, _ => []
  end.

(** The step whose action the evaluator puts on the action queue: the step
    it takes while there is no error. *)
Definition dispatched_step (l : Label) (sys : System) : list Expectation :=
  match errors (server sys) with
  | [] => taken_step l sys
  | _ :: _ => []
  end.

(** The action the executor takes off the action queue. *)
Definition taken_action (l : Label) (sys : System) : list Expectation :=
  match l, server_action_task sys, server_actions (server sys) with
  | ExecutorGets, AtGet, action :: _ => [action]
  | _, _, _ => []
  end.

(** The action the executor starts: the action it takes while there is no
    error. *)
Definition started_action (l : Label) (sys : System) : list Expectation :=
  match errors (server sys) with
  | [] => taken_action l sys
  | _ :: _ => []
  end.

(** ** Running the tasks to completion *)

(** The transitions that are turns of the two tasks. *)
Definition is_task_turn (l : Label) : bool :=
  match l with
  | EvaluatorGets | EvaluatorResumes _ | ExecutorGets | ExecutorResumes _ => true
  | _ => false
  end.

(** A transport whose reads raise nothing but [Exception]s: a read that is
    not cancelled. *)
Definition raises_only_exceptions (io : Transport) : bool :=
  match read_result io with
  | Raises e => is_Exception e
  | Returns _ => true
  end.

(** The next turn of the tasks, the peer doing nothing more: the evaluator
    when it can move (a pending [evaluate] completing at the latest when its
    timer expires), otherwise the executor, [transport] saying what the
    transport does for the action that completes. *)
Definition task_turn (transport : System -> Transport) (sys : System)
  : option Label :=
  match step EvaluatorGets sys with
  | Some _ => Some EvaluatorGets
  | None =>
      match step (EvaluatorResumes true) sys with
      | Some _ => Some (EvaluatorResumes true)
      | None =>
          match step ExecutorGets sys with
          | Some _ => Some ExecutorGets
          | None =>
              match step (ExecutorResumes (transport sys)) sys with
              | Some _ => Some (ExecutorResumes (transport sys))
              | None => None
              end
          end
      end
  end.

(** The turns of the tasks from [sys] on, at most [fuel] of them. *)
Fixpoint completion (fuel : nat) (transport : System -> Transport) (sys : System)
  : list Label :=
  match fuel with
  | 0 => []
  | S fuel' =>
      match task_turn transport sys with
      | None => []
      | Some l =>
          match step l sys with
          | Some sys' => l :: completion fuel' transport sys'
          | None => []
          end
      end
  end.

(** A bound on the number of turns the tasks still have to take: a queued
    step costs a [get], an [evaluate] and, for its action, a place in the
    action queue; a queued action costs a [get] and a run. *)
Definition work_left (sys : System) : nat :=
  6 * List.length (expecations_queue (server sys))
  + 3 * List.length (server_actions (server sys))
  + match evaluator_task sys with Awaiting _ => 1 | _ => 0 end
  + match server_action_task sys with Awaiting _ => 1 | _ => 0 end.

(** The number of actions, running or queued, that will publish an event. *)
Definition events_to_come (sys : System) : nat :=
  List.length
    (filter waits_for_event
       (match server_action_task sys with
        | Awaiting action => [action]
        | _ => []
        end ++ server_actions (server sys))).

(** While there is no error and the executor is alive, an [evaluate] that
    waits for the event queue has its event there or on the way. *)
Definition pipeline_invariant (sys : System) : Prop :=
  (exists e, server_action_task sys = Terminated e)
  \/ (errors (server sys) = [] ->
      forall e, evaluator_task sys = Awaiting e ->
                waits_for_event e = true ->
                1 <= List.length (server_event_queue (server sys))
                     + events_to_come sys).

(** * Properties *)

(** ** Bytes *)

Lemma bytes_eqb_eq : forall a b : bytes, bytes_eqb a b = true <-> a = b.
Proof.
  induction a as [|x a IH]; destruct b as [|y b]; simpl; split;
    try congruence; try reflexivity.
  - intro H. apply andb_true_iff in H. destruct H as [Hx Hab].
    apply Byte.byte_dec_bl in Hx. apply IH in Hab. congruence.
  - intro H. injection H as -> ->.
    apply andb_true_iff. split.
    + now apply Byte.byte_dec_lb.
    + now apply IH.
Qed.

Lemma bytes_eqb_refl : forall a : bytes, bytes_eqb a a = true.
Proof. intro a. now apply bytes_eqb_eq. Qed.

Lemma bytes_eqb_neq : forall a b : bytes, bytes_eqb a b = false <-> a <> b.
Proof.
  intros a b. split.
  - intros H Heq. apply bytes_eqb_eq in Heq. congruence.
  - intro H. destruct (bytes_eqb a b) eqn:E; [|reflexivity].
    apply bytes_eqb_eq in E. contradiction.
Qed.

Lemma startswith_app : forall p suffix : bytes, startswith (p ++ suffix) p = true.
Proof.
  induction p as [|y p IH]; intro suffix; simpl; [reflexivity|].
  rewrite IH. now rewrite (Byte.byte_dec_lb (eq_refl y)).
Qed.

Lemma startswith_prefix : forall p s : bytes,
  startswith s p = true <-> exists suffix, s = p ++ suffix.
Proof.
  induction p as [|y p IH]; intro s; simpl.
  - split; [intros _; now exists s | reflexivity].
  - destruct s as [|x s]; split.
    + discriminate.
    + intros [suffix H]. discriminate.
    + intro H. apply andb_true_iff in H. destruct H as [Hx Hs].
      apply Byte.byte_dec_bl in Hx. apply IH in Hs. destruct Hs as [suffix ->].
      exists suffix. now subst.
    + intros [suffix H]. injection H as -> ->.
      now rewrite (Byte.byte_dec_lb (eq_refl y)), startswith_app.
Qed.

Lemma slice_from_app : forall p suffix : bytes,
  slice_from (List.length p) (p ++ suffix) = suffix.
Proof.
  induction p as [|y p IH]; intro suffix; simpl; [reflexivity|].
  apply IH.
Qed.

(** ** Receive-exact-bytes *)

Lemma ExpectBytes_check_ok : forall (B : bytes) (ev : ServerActionEvent),
  ExpectBytes_check B ev = Returns tt <-> ev = BytesReadEvent B.
Proof.
  intros B ev. split.
  - destruct ev; simpl; try discriminate.
    destruct (bytes_eqb bytes_read B) eqn:E; simpl; [|discriminate].
    intros _. apply bytes_eqb_eq in E. now subst.
  - intros ->. simpl. now rewrite bytes_eqb_refl.
Qed.

Lemma ExpectBytes_check_fail : forall (B : bytes) (ev : ServerActionEvent),
  ev <> BytesReadEvent B ->
  ExpectBytes_check B ev = Raises (UnexpectedEventError (BytesReadEvent B) ev).
Proof.
  intros B ev Hne. destruct ev; simpl; try reflexivity.
  destruct (bytes_eqb bytes_read B) eqn:E; simpl; [|reflexivity].
  apply bytes_eqb_eq in E. subst. contradiction.
Qed.

(** C4.  [ExpectBytes(B).evaluate] takes the next entry of the event queue
    (and stays suspended while there is none); it succeeds exactly when that
    entry is [BytesReadEvent(B)]; every other entry, of another kind or a
    [BytesReadEvent] with other content, makes it raise
    [UnexpectedEventError(BytesReadEvent(B), entry)].  The error of a
    content mismatch differs from the error of a timeout, and so do the
    messages the interpreter makes of them. *)
Theorem ExpectBytes_evaluate_exact :
  forall (B : bytes) (timeout : Timeout) (timed_out : bool) (s : MockTcpServer),
    (server_event_queue s = [] ->
     evaluate (ExpectBytes B timeout) timed_out s = Pending)
    /\ (forall next_event rest,
          server_event_queue s = next_event :: rest ->
          evaluate (ExpectBytes B timeout) timed_out s
            = Done (ExpectBytes_check B next_event, set_server_event_queue rest s))
    /\ (forall next_event,
          ExpectBytes_check B next_event = Returns tt
          <-> next_event = BytesReadEvent B)
    /\ (forall next_event,
          next_event <> BytesReadEvent B ->
          ExpectBytes_check B next_event
            = Raises (UnexpectedEventError (BytesReadEvent B) next_event))
    /\ (forall B' : bytes,
          B' <> B ->
          ExpectBytes_check B (BytesReadEvent B')
            = Raises (UnexpectedEventError (BytesReadEvent B) (BytesReadEvent B'))
          /\ ExpectBytes_check B TimeoutEvent
            = Raises (UnexpectedEventError (BytesReadEvent B) TimeoutEvent)
          /\ forall repr_bytes str_exception,
               interpret_error repr_bytes str_exception
                 (UnexpectedEventError (BytesReadEvent B) (BytesReadEvent B'))
               <> interpret_error repr_bytes str_exception
                    (UnexpectedEventError (BytesReadEvent B) TimeoutEvent)).
Proof.
  intros B timeout timed_out s. repeat split.
  - intro H. simpl. unfold ExpectBytes_evaluate, get_event. now rewrite H.
  - intros next_event rest H. simpl.
    unfold ExpectBytes_evaluate, get_event. now rewrite H.
  - apply ExpectBytes_check_ok.
  - apply ExpectBytes_check_ok.
  - apply ExpectBytes_check_fail.
  - apply ExpectBytes_check_fail. congruence.
  - simpl. discriminate.
Qed.

Lemma ExpectBytes_evaluate_exact_witness :
  evaluate (ExpectBytes ["a"%byte] 1%Z) false
    (put_event (BytesReadEvent ["a"%byte; "b"%byte]) new_server)
  = Done (Raises (UnexpectedEventError (BytesReadEvent ["a"%byte])
                    (BytesReadEvent ["a"%byte; "b"%byte])),
          new_server).
Proof.
  destruct (ExpectBytes_evaluate_exact ["a"%byte] 1%Z false
              (put_event (BytesReadEvent ["a"%byte; "b"%byte]) new_server))
    as (_ & Hget & _ & Hfail & _).
  rewrite (Hget (BytesReadEvent ["a"%byte; "b"%byte]) []) by reflexivity.
  rewrite Hfail by discriminate.
  reflexivity.
Defined.

(** ** Receive-until-close *)

(** C5.  [ExpectReadZeroBytes.server_action] returns [BytesReadEvent(data)]
    exactly when the read returned a non-empty [data], [ReadZeroBytes]
    exactly when the read returned no byte or raised
    [ConnectionResetError], and [TimeoutEvent] exactly when the timer
    expired; it returns no other event, never [None], and leaves the engine
    as it was.  [evaluate] takes the next event and succeeds exactly when it
    is [ReadZeroBytes]. *)
Theorem ExpectReadZeroBytes_outcomes :
  forall (timeout : Timeout) (io : Transport) (s : MockTcpServer),
    let result := fst (ExpectReadZeroBytes_server_action timeout io s) in
    (forall data,
        result = Returns (Some (BytesReadEvent data))
        <-> reader_call io s = Returns data /\ data <> [])
    /\ (result = Returns (Some ReadZeroBytes)
        <-> reader_call io s = Returns []
            \/ reader_call io s = Raises ConnectionResetError)
    /\ (result = Returns (Some TimeoutEvent)
        <-> reader_call io s = Raises TimeoutError)
    /\ (forall r, result = Returns r ->
          (exists data, r = Some (BytesReadEvent data))
          \/ r = Some ReadZeroBytes \/ r = Some TimeoutEvent)
    /\ snd (ExpectReadZeroBytes_server_action timeout io s) = s
    /\ (forall timed_out next_event rest,
          server_event_queue s = next_event :: rest ->
          evaluate (ExpectReadZeroBytes timeout) timed_out s
            = Done (ExpectReadZeroBytes_check next_event,
                    set_server_event_queue rest s))
    /\ (forall next_event,
          ExpectReadZeroBytes_check next_event = Returns tt
          <-> next_event = ReadZeroBytes).
Proof.
  intros timeout io s result. subst result.
  unfold ExpectReadZeroBytes_server_action. simpl fst. simpl snd.
  assert (Hev : forall timed_out next_event rest,
             server_event_queue s = next_event :: rest ->
             evaluate (ExpectReadZeroBytes timeout) timed_out s
             = Done (ExpectReadZeroBytes_check next_event,
                     set_server_event_queue rest s)).
  { intros timed_out next_event rest H. simpl.
    unfold ExpectReadZeroBytes_evaluate, get_event. now rewrite H. }
  assert (Hck : forall next_event,
             ExpectReadZeroBytes_check next_event = Returns tt
             <-> next_event = ReadZeroBytes).
  { intro next_event. split.
    - destruct next_event; simpl; congruence.
    - intros ->. reflexivity. }
  split; [|split; [|split; [|split; [|split; [reflexivity|split; assumption]]]]];
    destruct (reader_call io s) as [[|b received]|e]; try destruct e; simpl;
    try (intro data); try (intros r Hr; injection Hr as <-; now eauto);
    try (intro Hr; injection Hr as <-; now eauto);
    try (split; intros; intuition (try congruence)); try discriminate.
Qed.

(** ** Assert-no-unread-data *)

Lemma compare_ledgers_not_timeout : forall s : MockTcpServer,
  compare_ledgers s <> Raises TimeoutError.
Proof.
  intro s. unfold compare_ledgers.
  destruct (bytes_eqb _ _); [discriminate|].
  destruct (startswith _ _); discriminate.
Qed.

Lemma ExpectClientReadAllSentBytes_server_action_body :
  forall (timeout : Timeout) (s : MockTcpServer),
    ExpectClientReadAllSentBytes_server_action timeout s = (compare_ledgers s, s).
Proof.
  intros timeout s. unfold ExpectClientReadAllSentBytes_server_action.
  f_equal. unfold compare_ledgers.
  destruct (bytes_eqb _ _); [reflexivity|].
  destruct (startswith _ _); reflexivity.
Qed.

(** C6.  When [data_read_by_client] is a prefix of [data_sent_from_server],
    [ExpectClientReadAllSentBytes.server_action] returns
    [NoRemainingSentData] exactly when the two ledgers are equal, and
    otherwise [UnreadSentBytes(suffix)] for the [suffix] that the sent bytes
    have after the read ones; [evaluate] takes the next event and fails
    unless it is [NoRemainingSentData]. *)
Theorem ExpectClientReadAllSentBytes_ledgers :
  forall (timeout : Timeout) (s : MockTcpServer) (suffix : bytes),
    data_sent_from_server s = data_read_by_client s ++ suffix ->
    let result := fst (ExpectClientReadAllSentBytes_server_action timeout s) in
    (result = Returns (Some NoRemainingSentData)
     <-> data_read_by_client s = data_sent_from_server s)
    /\ (data_read_by_client s <> data_sent_from_server s ->
        result = Returns (Some (UnreadSentBytes suffix)))
    /\ (forall timed_out next_event rest,
          server_event_queue s = next_event :: rest ->
          evaluate (ExpectClientReadAllSentBytes timeout) timed_out s
            = Done (ExpectClientReadAllSentBytes_check next_event,
                    set_server_event_queue rest s))
    /\ (forall next_event,
          next_event <> NoRemainingSentData ->
          ExpectClientReadAllSentBytes_check next_event
            = Raises (UnexpectedEventError NoRemainingSentData next_event))
    /\ ExpectClientReadAllSentBytes_check NoRemainingSentData = Returns tt.
Proof.
  intros timeout s suffix Hpre result. subst result.
  rewrite ExpectClientReadAllSentBytes_server_action_body. simpl fst.
  split; [|split; [|split; [|split; [|reflexivity]]]].
  - unfold compare_ledgers.
    destruct (bytes_eqb (data_read_by_client s) (data_sent_from_server s)) eqn:E.
    + apply bytes_eqb_eq in E. tauto.
    + apply bytes_eqb_neq in E.
      destruct (startswith _ _); split; (discriminate || contradiction).
  - intro Hne. unfold compare_ledgers.
    apply bytes_eqb_neq in Hne. rewrite Hne.
    rewrite Hpre at 1. rewrite startswith_app.
    rewrite Hpre at 1. now rewrite slice_from_app.
  - intros timed_out next_event rest H. simpl.
    unfold ExpectClientReadAllSentBytes_evaluate, get_event. now rewrite H.
  - intros next_event H. destruct next_event; simpl; congruence.
Qed.

Lemma ExpectClientReadAllSentBytes_ledgers_witness :
  fst (ExpectClientReadAllSentBytes_server_action 1%Z
         (client_read ["a"%byte]
            (set_data_sent_from_server ["a"%byte; "b"%byte; "c"%byte] new_server)))
  = Returns (Some (UnreadSentBytes ["b"%byte; "c"%byte])).
Proof.
  apply (ExpectClientReadAllSentBytes_ledgers 1%Z
           (client_read ["a"%byte]
              (set_data_sent_from_server ["a"%byte; "b"%byte; "c"%byte] new_server))
           ["b"%byte; "c"%byte]).
  - reflexivity.
  - simpl. discriminate.
Defined.

(** C10.  [ExpectClientReadAllSentBytes.server_action] awaits nothing: the
    body of its [try] is a function of the two ledgers alone and never
    raises [TimeoutError], so the handler is never entered, the action
    never returns [TimeoutEvent], and neither the timeout of the step nor
    the transport has any part in the result. *)
Theorem ExpectClientReadAllSentBytes_timeout_unused :
  forall (timeout : Timeout) (io : Transport) (s : MockTcpServer),
    compare_ledgers s <> Raises TimeoutError
    /\ server_action (ExpectClientReadAllSentBytes timeout) io s
       = (compare_ledgers s, s)
    /\ fst (server_action (ExpectClientReadAllSentBytes timeout) io s)
       <> Returns (Some TimeoutEvent)
    /\ (forall (timeout' : Timeout) (io' : Transport),
          server_action (ExpectClientReadAllSentBytes timeout') io' s
          = server_action (ExpectClientReadAllSentBytes timeout) io s).
Proof.
  intros timeout io s. split; [|split; [|split]].
  - apply compare_ledgers_not_timeout.
  - apply ExpectClientReadAllSentBytes_server_action_body.
  - cbn [server_action].
    rewrite ExpectClientReadAllSentBytes_server_action_body. simpl.
    unfold compare_ledgers.
    destruct (bytes_eqb _ _); [discriminate|].
    destruct (startswith _ _); discriminate.
  - intros timeout' io'. cbn [server_action].
    now rewrite !ExpectClientReadAllSentBytes_server_action_body.
Qed.

(** ** Send-bytes *)

(** C7.  [SendBytes.server_action] returns [None] whatever the write does;
    when the write raises, the engine is left as it was; in every case the
    error list and the event queue are untouched.  The executor, resuming
    from such an action, publishes no event and records no error, and goes
    back to its [get].  [SendBytes.evaluate] completes at once, without
    raising and without touching the engine. *)
Theorem SendBytes_action_silent :
  forall (data : bytes) (io : Transport) (s : MockTcpServer)
         (evaluator : TaskState),
    let s' := snd (SendBytes_server_action data io s) in
    fst (SendBytes_server_action data io s) = Returns None
    /\ (forall e, writer_call io s = Raises e -> s' = s)
    /\ errors s' = errors s
    /\ server_event_queue s' = server_event_queue s
    /\ execute_server_actions_resume io
         (mkSystem s evaluator (Awaiting (SendBytes data)))
       = Some (mkSystem s' evaluator AtGet)
    /\ (forall timed_out,
          evaluate (SendBytes data) timed_out s = Done (Returns tt, s)).
Proof.
  intros data io s evaluator s'. subst s'.
  unfold execute_server_actions_resume. cbn [server_action_task server_action server].
  unfold SendBytes_server_action.
  destruct (writer_call io s) as [u|e]; simpl;
    repeat split; try reflexivity; intros; discriminate.
Qed.

Lemma SendBytes_action_silent_witness :
  snd (SendBytes_server_action ["x"%byte]
         (mkTransport (Returns []) (Raises (OSError 32)))
         (set_connection 1 2 new_server))
  = set_connection 1 2 new_server.
Proof.
  apply (SendBytes_action_silent ["x"%byte]
           (mkTransport (Returns []) (Raises (OSError 32)))
           (set_connection 1 2 new_server) AtGet)
    with (e := OSError 32).
  reflexivity.
Defined.

(** ** Connection acceptance *)

(** C3.  [handle_client_connection]: when [connected] is false it becomes
    true, the streams are registered and [ClientConnectedEvent] is put on
    the event queue; when [connected] is already true,
    [SecondClientConnectionAttempted] is put on the event queue and nothing
    else changes, the registered streams included.  Either way the call
    leaves exactly one more event on the queue. *)
Theorem handle_client_connection_flag :
  forall (reader' writer' : Stream) (s : MockTcpServer),
    let s' := handle_client_connection reader' writer' s in
    (connected s = false ->
     connected s' = true
     /\ reader s' = Some reader' /\ writer s' = Some writer'
     /\ server_event_queue s' = server_event_queue s ++ [ClientConnectedEvent])
    /\ (connected s = true ->
        s' = put_event SecondClientConnectionAttempted s
        /\ connected s' = true
        /\ reader s' = reader s /\ writer s' = writer s
        /\ server_event_queue s'
           = server_event_queue s ++ [SecondClientConnectionAttempted])
    /\ List.length (server_event_queue s')
       = S (List.length (server_event_queue s)).
Proof.
  intros reader' writer' s s'. subst s'. unfold handle_client_connection.
  destruct (connected s) eqn:E; simpl; repeat split;
    try discriminate; try assumption;
    rewrite length_app; simpl; lia.
Qed.

Lemma handle_client_connection_flag_witness :
  server_event_queue
    (handle_client_connection 3 4 (handle_client_connection 1 2 new_server))
  = [ClientConnectedEvent; SecondClientConnectionAttempted]
  /\ reader (handle_client_connection 3 4 (handle_client_connection 1 2 new_server))
     = Some 1.
Proof.
  destruct (handle_client_connection_flag 3 4
              (handle_client_connection 1 2 new_server)) as (_ & H & _).
  destruct (H eq_refl) as (_ & _ & Hr & _ & Hq).
  split; [exact Hq | exact Hr].
Defined.

(** ** The disconnect composite *)

(** C9, counterexample.  On an engine that has been stopped,
    [expect_disconnect] raises and puts nothing on the queue. *)
Lemma expect_disconnect_stopped_counterexample :
  expect_disconnect 1%Z (set_stopped true new_server)
    = (Raises (PlainException "Fixture is stopped"), set_stopped true new_server)
  /\ ~ (forall (timeout : Timeout) (s : MockTcpServer),
          expecations_queue (snd (expect_disconnect timeout s))
          = expecations_queue s
              ++ [ExpectReadZeroBytes timeout;
                  ExpectClientCalledWriterWaitClosed timeout;
                  ExpectClientReadAllSentBytes timeout]).
Proof.
  split; [reflexivity|].
  intro H. specialize (H 1%Z (set_stopped true new_server)).
  discriminate H.
Qed.

(** C9, amended.  A call of [expect_disconnect] on an engine that is not
    stopped returns, and puts exactly three steps at the end of the
    expectation queue, in this order: [ExpectReadZeroBytes],
    [ExpectClientCalledWriterWaitClosed], [ExpectClientReadAllSentBytes],
    each with the caller's timeout; the counter of the queue grows by three
    and nothing else changes.  On a stopped engine the call raises and the
    engine is left as it was. *)
Theorem expect_disconnect_three_steps :
  forall (timeout : Timeout) (s : MockTcpServer),
    (stopped s = false ->
     expect_disconnect timeout s
       = (Returns tt,
          set_expecations_queue
            (expecations_queue s
               ++ [ExpectReadZeroBytes timeout;
                   ExpectClientCalledWriterWaitClosed timeout;
                   ExpectClientReadAllSentBytes timeout])
            (3 + unfinished_tasks s) s))
    /\ (stopped s = true ->
        expect_disconnect timeout s
          = (Raises (PlainException "Fixture is stopped"), s)).
Proof.
  intros timeout s. unfold expect_disconnect, check_not_stopped.
  split; intros ->.
  - unfold put_expectation. destruct s; simpl.
    unfold set_expecations_queue; simpl.
    now rewrite <- !app_assoc.
  - reflexivity.
Qed.

Lemma expect_disconnect_three_steps_witness :
  expecations_queue (snd (expect_disconnect 5%Z (snd (send_bytes ["x"%byte] new_server))))
  = [SendBytes ["x"%byte];
     ExpectReadZeroBytes 5%Z;
     ExpectClientCalledWriterWaitClosed 5%Z;
     ExpectClientReadAllSentBytes 5%Z].
Proof.
  destruct (expect_disconnect_three_steps 5%Z (snd (send_bytes ["x"%byte] new_server)))
    as [H _].
  rewrite (H eq_refl). reflexivity.
Defined.

(** ** What the parts of a transition change *)

Lemma set_server_event_queue_same : forall s : MockTcpServer,
  set_server_event_queue (server_event_queue s) s = s.
Proof. now destruct s. Qed.

(** An [evaluate] that completes has at most taken the first event off the
    event queue; what it raises is an [UnexpectedEventError]. *)
Lemma evaluate_done : forall e timed_out s r s',
  evaluate e timed_out s = Done (r, s') ->
  (s' = s \/ exists ev rest, server_event_queue s = ev :: rest
                             /\ s' = set_server_event_queue rest s)
  /\ (forall x, r = Raises x -> is_Exception x = true).
Proof.
  intros e timed_out s r s' H.
  assert (Hchk : forall f : ServerActionEvent -> Outcome unit,
             (forall ev x, f ev = Raises x -> is_Exception x = true) ->
             match get_event s with
             | Done (next_event, s1) => Done (f next_event, s1)
             | Pending => Pending
             end = Done (r, s') ->
             (s' = s \/ exists ev rest, server_event_queue s = ev :: rest
                                        /\ s' = set_server_event_queue rest s)
             /\ (forall x, r = Raises x -> is_Exception x = true)).
  { intros f Hf. unfold get_event.
    destruct (server_event_queue s) as [|ev rest] eqn:Q; [discriminate|].
    intro H0. injection H0 as <- <-. split.
    - right. exists ev, rest. auto.
    - intros x Hx. eapply Hf; eauto. }
  destruct e; simpl in H.
  - unfold ExpectConnect_evaluate in H.
    destruct (expires_at_once timeout).
    { injection H as <- <-.
      split; [now left|]. intros x Hx. injection Hx as <-. reflexivity. }
    destruct (get_event s) as [|[ev s1]] eqn:G.
    + destruct timed_out; [|discriminate]. injection H as <- <-.
      split; [now left|]. intros x Hx. injection Hx as <-. reflexivity.
    + apply (Hchk ExpectConnect_check).
      * intros ev0 x. destruct ev0; simpl; intro Hx;
          try discriminate; injection Hx as <-; reflexivity.
      * exact H.
  - unfold ExpectClientCalledWriterWaitClosed_evaluate in H.
    destruct (expires_at_once timeout).
    { injection H as <- <-.
      split; [now left|]. intros x Hx. injection Hx as <-. reflexivity. }
    destruct (client_called_writer_waited_closed s).
    + injection H as <- <-. split; [now left|]. intros x Hx. discriminate.
    + destruct timed_out; [|discriminate]. injection H as <- <-.
      split; [now left|]. intros x Hx. injection Hx as <-. reflexivity.
  - apply (Hchk (ExpectBytes_check expected_bytes)); [|exact H].
    intros ev0 x. destruct ev0; simpl; intro Hx;
      try discriminate; try (injection Hx as <-; reflexivity).
    destruct (negb _); [injection Hx as <-; reflexivity | discriminate].
  - apply (Hchk ExpectReadZeroBytes_check); [|exact H].
    intros ev0 x. destruct ev0; simpl; intro Hx;
      try discriminate; injection Hx as <-; reflexivity.
  - apply (Hchk ExpectClientReadAllSentBytes_check); [|exact H].
    intros ev0 x. destruct ev0; simpl; intro Hx;
      try discriminate; injection Hx as <-; reflexivity.
  - unfold SendBytes_evaluate in H. injection H as <- <-.
    split; [now left|]. discriminate.
Qed.

(** An action changes nothing of the engine but, for [SendBytes], the
    ledger of sent bytes. *)
Lemma server_action_effect : forall a io s,
  (snd (server_action a io s) = s
   /\ forall data, a = SendBytes data ->
         fst (server_action a io s) = Returns None
         /\ exists e, writer_call io s = Raises e)
  \/ exists data, a = SendBytes data
       /\ writer_call io s = Returns tt
       /\ fst (server_action a io s) = Returns None
       /\ snd (server_action a io s)
          = set_data_sent_from_server (data_sent_from_server s ++ data) s.
Proof.
  intros a io s. destruct a; simpl; try (left; split; [reflexivity | discriminate]).
  unfold SendBytes_server_action.
  destruct (writer_call io s) as [[]|e] eqn:W; simpl.
  - right. exists data. auto.
  - left. split; [reflexivity|]. intros data0 _. eauto.
Qed.

(** ** Case analysis of a transition *)

Ltac break_step H :=
  repeat (simpl in H;
          match type of H with
          | context [match ?x with _ => _ end] =>
              lazymatch x with
              | context [match _ with _ => _ end] => fail
              | evaluate _ _ _ =>
                  let Ev := fresh "Ev" in
                  destruct x as [|[[[]|?] ?]] eqn:Ev
              | server_action _ _ _ =>
                  let Ac := fresh "Ac" in
                  destruct x as [[[?|]|?] ?] eqn:Ac
              | _ => destruct x eqn:?
              end
          end);
  try discriminate H;
  try (injection H as <-).

Ltac unfold_step H :=
  unfold step, evaluate_expectations_get, evaluate_expectations_resume,
    execute_server_actions_get, execute_server_actions_resume,
    evaluator_task_done, task_done, with_server,
    expect_connect, expect_bytes, send_bytes, expect_disconnect,
    check_not_stopped, handle_client_connection, client_read,
    client_writer_wait_closed in H;
  cbn [server evaluator_task server_action_task] in H.

(** What [evaluate] and [server_action] did, once a case analysis has named
    their results. *)
Ltac use_effects s :=
  repeat match goal with
         | Ev : evaluate _ _ s = Done (_, _) |- _ =>
             apply evaluate_done in Ev;
             let Hx := fresh "Hexc" in
             destruct Ev as [[->|(? & ? & ? & ->)] Hx];
             try (specialize (Hx _ eq_refl))
         | Ac : server_action ?a ?io s = (_, _) |- _ =>
             let E := fresh "E" in
             pose proof (server_action_effect a io s) as E;
             rewrite Ac in E; cbn [fst snd] in E; clear Ac;
             destruct E as [[-> ?]|(? & ? & ? & ? & ->)]
         end.

Lemma step_join_already_failed : forall l sys sys',
  step l sys = Some sys' ->
  join_already_failed (server sys') = join_already_failed (server sys).
Proof.
  intros l [s ev ex] sys' H.
  destruct l; unfold_step H; break_step H; use_effects s;
    destruct s; reflexivity.
Qed.

Lemma run_join_already_failed : forall ls sys sys',
  run ls sys = Some sys' ->
  join_already_failed (server sys') = join_already_failed (server sys).
Proof.
  induction ls as [|l ls IH]; intros sys sys' H; simpl in H.
  - now injection H as <-.
  - destruct (step l sys) as [sys1|] eqn:S1; [|discriminate].
    rewrite (IH _ _ H). eapply step_join_already_failed; eauto.
Qed.

(** ** Join *)

(** C2.  A call of [join] that is not short-circuited and finds the
    expectation queue drained raises exactly when [errors] is not empty.
    It then raises [Exception(interpret_error(errors[0]))], whatever the
    later errors are, and sets [join_already_failed]; from then on, whatever
    the engine goes through, every call of [join] returns at once, without
    waiting and without raising, and leaves the engine as it is. *)
Theorem join_first_error :
  forall (repr_bytes : bytes -> string) (str_exception : PyException -> string)
         (s : MockTcpServer),
    join_already_failed s = false ->
    unfinished_tasks s = 0 ->
    ((exists e s', join repr_bytes str_exception s = JoinRaised e s')
     <-> errors s <> [])
    /\ (errors s = [] -> join repr_bytes str_exception s = JoinReturned s)
    /\ (forall first rest,
          errors s = first :: rest ->
          join repr_bytes str_exception s
            = JoinRaised
                (PlainException (interpret_error repr_bytes str_exception first))
                (set_join_already_failed true s)
          /\ forall ls evaluator executor sys',
               run ls (mkSystem (set_join_already_failed true s) evaluator executor)
                 = Some sys' ->
               join repr_bytes str_exception (server sys')
                 = JoinReturned (server sys')).
Proof.
  intros repr_bytes str_exception s Hflag Hdrained.
  unfold join at 1 2 3. rewrite Hflag, Hdrained. simpl.
  split; [|split].
  - destruct (errors s) as [|first rest]; split.
    + intros (e & s' & H). discriminate.
    + congruence.
    + discriminate.
    + intros _. eauto.
  - now intros ->.
  - intros first rest ->. split; [reflexivity|].
    intros ls evaluator executor sys' Hrun.
    apply run_join_already_failed in Hrun. simpl in Hrun.
    unfold join. now rewrite Hrun.
Qed.

Lemma join_first_error_witness :
  join (fun _ => "b'..'"%string) (fun _ => "error"%string)
    (error AssertionError (error (UnexpectedEventError ClientConnectedEvent TimeoutEvent)
                             new_server))
  = JoinRaised (PlainException "Timed out waiting for client to connect")
      (set_join_already_failed true
         (error AssertionError
            (error (UnexpectedEventError ClientConnectedEvent TimeoutEvent) new_server))).
Proof.
  destruct (join_first_error (fun _ => "b'..'"%string) (fun _ => "error"%string)
              (error AssertionError
                 (error (UnexpectedEventError ClientConnectedEvent TimeoutEvent)
                    new_server))
              eq_refl eq_refl) as (_ & _ & H).
  destruct (H (UnexpectedEventError ClientConnectedEvent TimeoutEvent)
              [AssertionError] eq_refl) as [Hraise _].
  exact Hraise.
Defined.

(** ** The invariant of the scheduler *)

Ltac finish_invariant :=
  simpl in *; subst; simpl in *; rewrite ?length_app in *; simpl in *;
  try contradiction; try congruence;
  try match goal with
      | I : _ /\ (_ -> _ -> _ <> []) |- _ => destruct I as [? ?]
      end;
  try lia;
  try (split; [lia|]);
  try (intros Hw He Hq;
       solve [ contradiction
             | destruct (app_eq_nil _ _ Hq); discriminate
             | match goal with
               | I : _ -> _ -> _ <> [] |- _ => apply I; congruence
               end ]).

Lemma step_scheduler_invariant : forall l sys sys',
  step l sys = Some sys' ->
  scheduler_invariant sys -> scheduler_invariant sys'.
Proof.
  intros l [s ev ex] sys' H Inv. unfold scheduler_invariant in *.
  cbn [server evaluator_task] in Inv.
  destruct ev; destruct l; unfold_step H; break_step H; use_effects s;
    destruct s; finish_invariant.
Qed.

Lemma run_scheduler_invariant : forall ls sys sys',
  run ls sys = Some sys' ->
  scheduler_invariant sys -> scheduler_invariant sys'.
Proof.
  induction ls as [|l ls IH]; intros sys sys' H Inv; simpl in H.
  - now injection H as <-.
  - destruct (step l sys) as [sys1|] eqn:S1; [|discriminate].
    eapply IH; eauto. eapply step_scheduler_invariant; eauto.
Qed.

Lemma reachable_scheduler_invariant : forall sys,
  reachable sys -> scheduler_invariant sys.
Proof.
  intros sys [ls H]. eapply run_scheduler_invariant; eauto. reflexivity.
Qed.

Lemma run_app : forall ls1 ls2 sys,
  run (ls1 ++ ls2) sys
  = match run ls1 sys with
    | Some sys1 => run ls2 sys1
    | None => None
    end.
Proof.
  induction ls1 as [|l ls1 IH]; intros ls2 sys; simpl; [reflexivity|].
  destruct (step l sys); [apply IH | reflexivity].
Qed.

Lemma reachable_run : forall ls sys sys',
  reachable sys -> run ls sys = Some sys' -> reachable sys'.
Proof.
  intros ls sys sys' [ls0 H0] H. exists (ls0 ++ ls).
  now rewrite run_app, H0.
Qed.

(** [errors] is append-only. *)
Lemma step_errors : forall l sys sys',
  step l sys = Some sys' ->
  exists more, errors (server sys') = errors (server sys) ++ more.
Proof.
  intros l [s ev ex] sys' H.
  destruct l; unfold_step H; break_step H; use_effects s;
    destruct s; simpl in *;
    solve [ exists []; now rewrite app_nil_r | eexists; reflexivity ].
Qed.

Lemma run_errors : forall ls sys sys',
  run ls sys = Some sys' ->
  exists more, errors (server sys') = errors (server sys) ++ more.
Proof.
  induction ls as [|l ls IH]; intros sys sys' H; simpl in H.
  - injection H as <-. exists []. now rewrite app_nil_r.
  - destruct (step l sys) as [sys1|] eqn:S1; [|discriminate].
    destruct (step_errors _ _ _ S1) as [m1 E1].
    destruct (IH _ _ H) as [m2 E2].
    exists (m1 ++ m2). now rewrite E2, E1, app_assoc.
Qed.

Lemma run_errors_nonempty : forall ls sys sys',
  run ls sys = Some sys' ->
  errors (server sys) <> [] -> errors (server sys') <> [].
Proof.
  intros ls sys sys' H Hne. destruct (run_errors _ _ _ H) as [more E].
  rewrite E. destruct (errors (server sys)); [contradiction | discriminate].
Qed.

Lemma run_errors_empty : forall ls sys sys',
  run ls sys = Some sys' ->
  errors (server sys') = [] -> errors (server sys) = [].
Proof.
  intros ls sys sys' H He. destruct (run_errors _ _ _ H) as [more E].
  rewrite E in He. now apply app_eq_nil in He.
Qed.

(** ** Draining once there are errors *)

(** One iteration of the evaluator when there are errors: the step leaves
    the queue, the counter goes down by one, nothing else changes. *)
Lemma evaluate_expectations_get_skips : forall s executor e rest n,
  errors s <> [] ->
  expecations_queue s = e :: rest ->
  unfinished_tasks s = S n ->
  evaluate_expectations_get (mkSystem s AtGet executor)
  = Some (mkSystem (set_expecations_queue rest n s) AtGet executor).
Proof.
  intros s executor e rest n He Hq Hn.
  unfold evaluate_expectations_get. cbn [evaluator_task server]. rewrite Hq.
  destruct s; simpl in *. destruct errors0; [contradiction|].
  unfold evaluator_task_done, task_done; simpl. now subst.
Qed.

(** One iteration of the executor when there are errors: the action leaves
    the queue, nothing else changes. *)
Lemma execute_server_actions_get_drops : forall s evaluator a rest,
  errors s <> [] ->
  server_actions s = a :: rest ->
  execute_server_actions_get (mkSystem s evaluator AtGet)
  = Some (mkSystem (set_server_actions rest s) evaluator AtGet).
Proof.
  intros s evaluator a rest He Hq.
  unfold execute_server_actions_get. cbn [server_action_task server]. rewrite Hq.
  destruct s; simpl in *. destruct errors0; [contradiction | reflexivity].
Qed.

Lemma drain_at_get : forall q s executor,
  errors s <> [] ->
  expecations_queue s = q ->
  unfinished_tasks s = List.length q ->
  run (repeat EvaluatorGets (List.length q)) (mkSystem s AtGet executor)
  = Some (mkSystem (set_expecations_queue [] 0 s) AtGet executor).
Proof.
  induction q as [|e rest IH]; intros s executor He Hq Hn; simpl.
  - destruct s; simpl in *. now subst.
  - rewrite (@evaluate_expectations_get_skips s executor e rest _ He Hq Hn).
  
    rewrite IH.
    + destruct s; reflexivity.
    + now destruct s.
    + now destruct s.
    + now destruct s.
Qed.

(** An [evaluate] that was awaited when the errors appeared completes: on
    its own timer, or on the event the invariant puts in the queue. *)
Lemma evaluate_completes : forall e s,
  (waits_for_event e = true -> server_event_queue s <> []) ->
  exists r s', evaluate e true s = Done (r, s').
Proof.
  intros e s Hq.
  destruct e; simpl;
    unfold ExpectConnect_evaluate, ExpectClientCalledWriterWaitClosed_evaluate,
      ExpectBytes_evaluate, ExpectReadZeroBytes_evaluate,
      ExpectClientReadAllSentBytes_evaluate, SendBytes_evaluate, get_event;
    try destruct (expires_at_once timeout);
    try (destruct (server_event_queue s) eqn:Q;
         [ try (exfalso; now apply Hq) | ]);
    try destruct (client_called_writer_waited_closed s);
    eauto.
Qed.

Lemma evaluate_expectations_resume_completes : forall s executor e,
  scheduler_invariant (mkSystem s (Awaiting e) executor) ->
  errors s <> [] ->
  exists s1,
    evaluate_expectations_resume true (mkSystem s (Awaiting e) executor)
    = Some (mkSystem s1 AtGet executor)
    /\ errors s1 <> []
    /\ expecations_queue s1 = expecations_queue s
    /\ unfinished_tasks s1 = List.length (expecations_queue s)
    /\ server_actions s1 = server_actions s
    /\ join_already_failed s1 = join_already_failed s.
Proof.
  intros s executor e [Hn Hq] He. cbn [server] in *.
  destruct (evaluate_completes e s) as (r & s' & Ev); [auto|].
  unfold evaluate_expectations_resume. cbn [evaluator_task server]. rewrite Ev.
  pose proof (evaluate_done _ _ _ _ _ Ev) as [Hs Hx].
  assert (Hsame : errors s' = errors s /\ expecations_queue s' = expecations_queue s
                  /\ unfinished_tasks s' = unfinished_tasks s
                  /\ server_actions s' = server_actions s
                  /\ join_already_failed s' = join_already_failed s).
  { destruct Hs as [->|(ev & rest & _ & ->)]; [tauto|]. now destruct s. }
  destruct Hsame as (E1 & E2 & E3 & E4 & E5).
  destruct r as [[]|x].
  - unfold evaluator_task_done, task_done. rewrite E3, Hn.
    eexists. split; [reflexivity|]. destruct s'; simpl in *.
    repeat split; congruence.
  - rewrite (Hx x eq_refl).
    unfold evaluator_task_done, task_done, error.
    destruct s'; simpl in *. rewrite E3, Hn.
    eexists. split; [reflexivity|]. simpl.
    repeat split; try congruence.
    intro Hnil. apply app_eq_nil in Hnil. destruct Hnil; discriminate.
Qed.

Lemma join_of_drained : forall repr_bytes str_exception s,
  unfinished_tasks s = 0 ->
  join repr_bytes str_exception s <> JoinWaiting.
Proof.
  intros repr_bytes str_exception s H. unfold join. rewrite H. simpl.
  destruct (join_already_failed s); [discriminate|].
  destruct (errors s); discriminate.
Qed.

Lemma drain_from_invariant : forall sys,
  scheduler_invariant sys ->
  errors (server sys) <> [] ->
  exists sys',
    run (drain_schedule sys) sys = Some sys'
    /\ expecations_queue (server sys') = []
    /\ unfinished_tasks (server sys') = 0
    /\ server_actions (server sys') = server_actions (server sys)
    /\ server_action_task sys' = server_action_task sys.
Proof.
  intros [s ev ex] Inv He. unfold drain_schedule. cbn [server evaluator_task] in *.
  destruct ev as [|e|x].
  - simpl app. unfold scheduler_invariant in Inv. cbn [server evaluator_task] in Inv.
    rewrite (drain_at_get _ s ex He eq_refl Inv).
    eexists. split; [reflexivity|]. now destruct s.
  - destruct (evaluate_expectations_resume_completes s ex e Inv He)
      as (s1 & Hres & He1 & Hq1 & Hn1 & Ha1 & _).
    simpl app. cbn [run step]. rewrite Hres. rewrite <- Hq1.
    rewrite <- Hq1 in Hn1.
    rewrite (drain_at_get _ s1 ex He1 eq_refl Hn1).
    eexists. split; [reflexivity|]. destruct s1; simpl in *. auto.
  - destruct Inv.
Qed.

(** C1.  In every state a started engine can reach with a non-empty
    [errors]: an iteration of the evaluator takes the next declared step off
    the expectation queue and calls [task_done], and does nothing else (no
    action is put on the action queue, [evaluate] is not called); an
    iteration of the executor takes the next action off the action queue and
    does nothing else (the action is not run, no event is published).  So,
    whatever else the engine goes through from there, the evaluator's turns
    empty the expectation queue and bring its counter to zero, and [join]
    no longer waits. *)
Theorem errors_drain_the_queue :
  forall (repr_bytes : bytes -> string) (str_exception : PyException -> string)
         (sys : System),
    reachable sys ->
    errors (server sys) <> [] ->
    (forall e rest,
        evaluator_task sys = AtGet ->
        expecations_queue (server sys) = e :: rest ->
        unfinished_tasks (server sys) = S (List.length rest)
        /\ evaluate_expectations_get sys
           = Some (mkSystem
                     (set_expecations_queue rest (List.length rest) (server sys))
                     AtGet (server_action_task sys)))
    /\ (forall a rest,
          server_action_task sys = AtGet ->
          server_actions (server sys) = a :: rest ->
          execute_server_actions_get sys
          = Some (mkSystem (set_server_actions rest (server sys))
                           (evaluator_task sys) AtGet))
    /\ (forall ls sys1,
          run ls sys = Some sys1 ->
          exists sys2,
            run (drain_schedule sys1) sys1 = Some sys2
            /\ expecations_queue (server sys2) = []
            /\ unfinished_tasks (server sys2) = 0
            /\ server_actions (server sys2) = server_actions (server sys1)
            /\ server_action_task sys2 = server_action_task sys1
            /\ join repr_bytes str_exception (server sys2) <> JoinWaiting).
Proof.
  intros repr_bytes str_exception sys Hreach He.
  split; [|split].
  - intros e rest Hev Hq.
    pose proof (reachable_scheduler_invariant _ Hreach) as Inv.
    destruct sys as [s ev ex]. cbn [server evaluator_task server_action_task] in *.
    subst ev. unfold scheduler_invariant in Inv. cbn [server evaluator_task] in Inv.
    rewrite Hq in Inv. simpl in Inv. split; [exact Inv|].
    now apply evaluate_expectations_get_skips with (e := e).
  - intros a rest Hex Hq.
    destruct sys as [s ev ex]. cbn [server evaluator_task server_action_task] in *.
    subst ex. now apply execute_server_actions_get_drops with (a := a).
  - intros ls sys1 Hrun.
    assert (Inv1 : scheduler_invariant sys1).
    { apply reachable_scheduler_invariant. eapply reachable_run; eauto. }
    assert (He1 : errors (server sys1) <> []).
    { eapply run_errors_nonempty; eauto. }
    destruct (drain_from_invariant _ Inv1 He1) as (sys2 & H1 & H2 & H3 & H4 & H5).
    exists sys2. repeat split; try assumption.
    now apply join_of_drained.
Qed.

Lemma errors_drain_the_queue_witness :
  exists sys,
    run [CallExpectConnect 1%Z; CallSendBytes ["x"%byte]; CallExpectDisconnect 1%Z;
         EvaluatorGets; EvaluatorResumes true] start = Some sys
    /\ errors (server sys) = [UnexpectedEventError ClientConnectedEvent TimeoutEvent]
    /\ List.length (expecations_queue (server sys)) = 4
    /\ exists sys2,
         run (drain_schedule sys) sys = Some sys2
         /\ unfinished_tasks (server sys2) = 0
         /\ server_actions (server sys2) = server_actions (server sys)
         /\ join (fun _ => ""%string) (fun _ => ""%string) (server sys2)
            <> JoinWaiting.
Proof.
  eexists. split; [vm_compute; reflexivity|].
  split; [reflexivity|]. split; [reflexivity|].
  match goal with
  | |- exists sys2, run (drain_schedule ?sys) _ = _ /\ _ =>
      assert (Hr : reachable sys)
        by (exists [CallExpectConnect 1%Z; CallSendBytes ["x"%byte];
                    CallExpectDisconnect 1%Z; EvaluatorGets; EvaluatorResumes true];
            vm_compute; reflexivity);
      assert (Hne : errors (server sys) <> []) by (simpl; discriminate);
      destruct (errors_drain_the_queue (fun _ => ""%string) (fun _ => ""%string)
                  sys Hr Hne) as (_ & _ & Hd);
      destruct (Hd [] sys eq_refl) as (sys2 & H1 & _ & H2 & H3 & _ & H4)
  end.
  exists sys2. repeat split; assumption.
Defined.

(** ** The ledger of sent bytes *)

Lemma step_sent : forall l sys sys',
  step l sys = Some sys' ->
  data_sent_from_server (server sys')
  = data_sent_from_server (server sys) ++ List.concat (written (performed_send l sys)).
Proof.
  intros l [s ev ex] sys' H. unfold written, performed_send.
  cbn [server server_action_task].
  destruct l; unfold_step H; break_step H; use_effects s;
    try match goal with
        | Hw : forall data, ?a = SendBytes data -> _ |- _ =>
            destruct a; try specialize (Hw _ eq_refl);
            try match type of Hw with
                | _ /\ exists _, _ => destruct Hw as (? & ? & Hw); rewrite Hw
                end
        end;
    try match goal with
        | E : SendBytes _ = SendBytes _ |- _ => injection E as <-
        | E : ?a = SendBytes _ |- _ => subst a
        end;
    try match goal with
        | W : writer_call _ _ = Returns tt |- _ => rewrite W
        end;
    destruct s; simpl; rewrite ?app_nil_r; try reflexivity; try congruence.
Qed.

Lemma run_sent : forall ls sys sys',
  run ls sys = Some sys' ->
  data_sent_from_server (server sys')
  = data_sent_from_server (server sys) ++ List.concat (written (performed_sends ls sys)).
Proof.
  induction ls as [|l ls IH]; intros sys sys' H; simpl in H |- *.
  - injection H as <-. simpl. now rewrite app_nil_r.
  - destruct (step l sys) as [sys1|] eqn:S1; [|discriminate].
    rewrite (IH _ _ H), (step_sent _ _ _ S1).
    unfold written. now rewrite filter_app, map_app, concat_app, app_assoc.
Qed.

Ltac finish_sends :=
  simpl in *; subst; simpl in *;
  rewrite ?flat_map_app, ?app_nil_r, <- ?app_assoc; simpl;
  rewrite ?app_nil_r;
  try reflexivity; try congruence;
  try match goal with
      | |- context [send_payload ?a] =>
          is_var a; destruct a; simpl; reflexivity
      end;
  try (exfalso;
       match goal with
       | H : _ ++ _ :: _ = [] |- _ => apply app_eq_nil in H; destruct H; discriminate
       | H : _ ++ [_] = [] |- _ => apply app_eq_nil in H; destruct H; discriminate
       end).

(** While there is no error, a transition moves payloads from the front of
    the pending ones to the writes performed, and puts the declared ones at
    the back. *)
Lemma step_sends : forall l sys sys',
  step l sys = Some sys' ->
  errors (server sys') = [] ->
  map fst (performed_send l sys) ++ pending_sends sys'
  = pending_sends sys ++ declared_send l sys.
Proof.
  intros l [s ev ex] sys' H He. unfold performed_send, pending_sends, declared_send.
  cbn [server server_action_task].
  destruct ex as [|a|x]; destruct l; unfold_step H; break_step H; use_effects s;
    destruct s; finish_sends.
Qed.

Lemma run_sends : forall ls sys sys',
  run ls sys = Some sys' ->
  errors (server sys') = [] ->
  map fst (performed_sends ls sys) ++ pending_sends sys'
  = pending_sends sys ++ declared_sends ls sys.
Proof.
  induction ls as [|l ls IH]; intros sys sys' H He; simpl in H |- *.
  - injection H as <-. now rewrite app_nil_r.
  - destruct (step l sys) as [sys1|] eqn:S1; [|discriminate].
    pose proof (run_errors_empty _ _ _ H He) as He1.
    rewrite map_app, <- app_assoc, (IH _ _ H He), app_assoc,
      (step_sends _ _ _ S1 He1).
    now rewrite app_assoc.
Qed.

Lemma all_done_no_pending : forall sys,
  scheduler_invariant sys -> all_done sys -> pending_sends sys = [].
Proof.
  intros [s ev ex] Inv (Hn & Ha & Hx). unfold pending_sends.
  cbn [server server_action_task evaluator_task] in *.
  unfold scheduler_invariant in Inv. cbn [server evaluator_task] in Inv.
  rewrite Hx, Ha. simpl.
  destruct ev as [|e|x].
  - rewrite Hn in Inv. symmetry in Inv. apply length_zero_iff_nil in Inv.
    now rewrite Inv.
  - destruct Inv as [Inv _]. congruence.
  - destruct Inv.
Qed.

(** C8, counterexample.  [send_bytes(b"x")] is declared on an engine to
    which no client has connected: the write raises inside the action, the
    action drops the exception, no error is recorded, [join] returns, and
    the ledger of sent bytes is empty although a payload was declared. *)
Lemma sent_bytes_ledger_counterexample :
  let ls := [CallSendBytes ["x"%byte]; EvaluatorGets; EvaluatorResumes false;
             ExecutorGets;
             ExecutorResumes (mkTransport (Returns []) (Returns tt))] in
  (exists sys,
      run ls start = Some sys
      /\ all_done sys
      /\ errors (server sys) = []
      /\ join (fun _ => ""%string) (fun _ => ""%string) (server sys)
         = JoinReturned (server sys)
      /\ data_sent_from_server (server sys) = []
      /\ List.concat (declared_sends ls start) = ["x"%byte])
  /\ ~ (forall ls sys,
          run ls start = Some sys ->
          all_done sys ->
          errors (server sys) = [] ->
          data_sent_from_server (server sys)
          = List.concat (declared_sends ls start)).
Proof.
  intro ls. split.
  - eexists. split; [vm_compute; reflexivity|].
    repeat split; vm_compute; reflexivity.
  - intro H.
    assert (Hrun : exists sys, run ls start = Some sys
                               /\ data_sent_from_server (server sys) = []
                               /\ all_done sys /\ errors (server sys) = []).
    { eexists. split; [vm_compute; reflexivity|].
      repeat split; vm_compute; reflexivity. }
    destruct Hrun as (sys & Hrun & Hsent & Hdone & Herr).
    specialize (H ls sys Hrun Hdone Herr).
    rewrite Hsent in H. vm_compute in H. discriminate H.
Qed.

(** * Further properties of the engine *)

(** ** Connect *)

Lemma positive_timeout : forall timeout : Timeout,
  (0 < timeout)%Z -> expires_at_once timeout = false.
Proof. intros timeout H. unfold expires_at_once. now apply Z.leb_gt. Qed.

Lemma non_positive_timeout : forall timeout : Timeout,
  (timeout <= 0)%Z -> expires_at_once timeout = true.
Proof. intros timeout H. unfold expires_at_once. now apply Z.leb_le. Qed.

(** X1.  [expect_connect] with a positive timeout does not depend on
    whether the client connects before or after the declaration (the case
    [start] is written for): on an idle engine without a connection, both
    orders end in the same state, with the step processed, the event
    consumed and no error, whatever the timer of the step does.  With no
    connection at all the [evaluate] stays suspended until the timer
    expires, and then records
    [UnexpectedEventError(ClientConnectedEvent(), TimeoutEvent())], which
    [interpret_error] reports as a connect timeout.  With a timeout that is
    not positive the step fails in that way even when the client has
    connected, and the [ClientConnectedEvent] stays in the event queue. *)
Theorem expect_connect_either_order :
  forall (reader' writer' : Stream) (timeout : Timeout) (b1 b2 : bool)
         (s : MockTcpServer) (executor : TaskState),
    connected s = false -> stopped s = false -> errors s = [] ->
    server_event_queue s = [] -> expecations_queue s = [] ->
    unfinished_tasks s = 0 -> join_already_failed s = false ->
    let sys := mkSystem s AtGet executor in
    ((0 < timeout)%Z ->
     (exists sys',
         run [ClientConnects reader' writer'; CallExpectConnect timeout;
              EvaluatorGets; EvaluatorResumes b1] sys = Some sys'
         /\ run [CallExpectConnect timeout; EvaluatorGets;
                 ClientConnects reader' writer'; EvaluatorResumes b2] sys = Some sys'
         /\ errors (server sys') = []
         /\ server_event_queue (server sys') = []
         /\ unfinished_tasks (server sys') = 0
         /\ evaluator_task sys' = AtGet
         /\ reader (server sys') = Some reader')
     /\ run [CallExpectConnect timeout; EvaluatorGets; EvaluatorResumes false] sys
        = None
     /\ (exists sys',
           run [CallExpectConnect timeout; EvaluatorGets; EvaluatorResumes true] sys
           = Some sys'
           /\ errors (server sys')
              = [UnexpectedEventError ClientConnectedEvent TimeoutEvent]
           /\ unfinished_tasks (server sys') = 0
           /\ forall repr_bytes str_exception,
                join repr_bytes str_exception (server sys')
                = JoinRaised
                    (PlainException "Timed out waiting for client to connect")
                    (set_join_already_failed true (server sys'))))
    /\ ((timeout <= 0)%Z ->
        exists sys',
          run [ClientConnects reader' writer'; CallExpectConnect timeout;
               EvaluatorGets; EvaluatorResumes b1] sys = Some sys'
          /\ errors (server sys')
             = [UnexpectedEventError ClientConnectedEvent TimeoutEvent]
          /\ server_event_queue (server sys') = [ClientConnectedEvent]
          /\ unfinished_tasks (server sys') = 0
          /\ evaluator_task sys' = AtGet).
Proof.
  intros reader' writer' timeout b1 b2 s executor Hc Hs He Hq Hx Hn Hj sys.
  subst sys. destruct s; simpl in Hc, Hs, He, Hq, Hx, Hn, Hj; subst.
  split.
  - intro Ht. destruct timeout as [|p|p]; try lia.
    split; [|split].
    + eexists. split; [reflexivity|]. repeat split; reflexivity.
    + reflexivity.
    + eexists. split; [reflexivity|]. repeat split; reflexivity.
  - intro Ht. destruct timeout as [|p|p]; try lia;
      (eexists; split; [reflexivity|]; repeat split; reflexivity).
Qed.

Lemma expect_connect_either_order_witness :
  run [ClientConnects 1 2; CallExpectConnect 1%Z; EvaluatorGets;
       EvaluatorResumes true] start
  = run [CallExpectConnect 1%Z; EvaluatorGets; ClientConnects 1 2;
         EvaluatorResumes false] start
  /\ exists sys',
       run [ClientConnects 1 2; CallExpectConnect 0%Z; EvaluatorGets;
            EvaluatorResumes false] start = Some sys'
       /\ errors (server sys')
          = [UnexpectedEventError ClientConnectedEvent TimeoutEvent].
Proof.
  split.
  - destruct (expect_connect_either_order 1 2 1%Z true false new_server AtGet
                eq_refl eq_refl eq_refl eq_refl eq_refl eq_refl eq_refl)
      as (H & _).
    destruct (H eq_refl) as ((sys' & H1 & H2 & _) & _).
    change (mkSystem new_server AtGet AtGet) with start in H1, H2.
    now rewrite H1, H2.
  - destruct (expect_connect_either_order 1 2 0%Z false false new_server AtGet
                eq_refl eq_refl eq_refl eq_refl eq_refl eq_refl eq_refl)
      as (_ & H).
    destruct (H ltac:(discriminate)) as (sys' & H1 & H2 & _).
    exists sys'. split; [exact H1 | exact H2].
Defined.

(** ** The close acknowledgement *)

Lemma step_latch : forall l sys sys',
  step l sys = Some sys' ->
  client_called_writer_waited_closed (server sys) = true ->
  client_called_writer_waited_closed (server sys') = true.
Proof.
  intros l [s ev ex] sys' H.
  destruct l; unfold_step H; break_step H; use_effects s;
    destruct s; simpl; auto.
Qed.

(** X2.  The latch [client_called_writer_waited_closed] is never reset:
    once the peer has called [wait_closed], whatever the engine goes
    through, [ExpectClientCalledWriterWaitClosed.evaluate] with a positive
    timeout completes at once without raising, without reading the event
    queue and whatever its timer does.  While the latch is not set the
    [evaluate] stays suspended until its timer expires and then raises
    [UnexpectedEventError(ClientCalledWriterWaitClosed(), TimeoutEvent())],
    reported as a timeout of [wait_closed].  With a timeout that is not
    positive it raises that error at once, even when the latch is set. *)
Theorem wait_closed_latch :
  forall (timeout : Timeout) (s : MockTcpServer),
    (client_called_writer_waited_closed s = true ->
     forall ls evaluator executor sys' timed_out,
       run ls (mkSystem s evaluator executor) = Some sys' ->
       client_called_writer_waited_closed (server sys') = true
       /\ ((0 < timeout)%Z ->
           evaluate (ExpectClientCalledWriterWaitClosed timeout) timed_out
             (server sys')
           = Done (Returns tt, server sys')))
    /\ ((0 < timeout)%Z ->
        client_called_writer_waited_closed s = false ->
        evaluate (ExpectClientCalledWriterWaitClosed timeout) false s = Pending
        /\ evaluate (ExpectClientCalledWriterWaitClosed timeout) true s
           = Done (Raises (UnexpectedEventError ClientCalledWriterWaitClosed
                             TimeoutEvent), s)
        /\ evaluate (ExpectClientCalledWriterWaitClosed timeout) true
             (client_writer_wait_closed s)
           = Done (Returns tt, client_writer_wait_closed s))
    /\ ((timeout <= 0)%Z ->
        forall timed_out,
          evaluate (ExpectClientCalledWriterWaitClosed timeout) timed_out s
          = Done (Raises (UnexpectedEventError ClientCalledWriterWaitClosed
                            TimeoutEvent), s))
    /\ forall repr_bytes str_exception,
         interpret_error repr_bytes str_exception
           (UnexpectedEventError ClientCalledWriterWaitClosed TimeoutEvent)
         = "Timed out waiting for client to call `await writer.wait_closed()`."%string.
Proof.
  intros timeout s. split; [|split; [|split]].
  - intros Hl ls evaluator executor sys' timed_out Hrun.
    assert (H : client_called_writer_waited_closed (server sys') = true).
    { revert evaluator executor s Hl Hrun.
      induction ls as [|l ls IH]; intros evaluator executor s Hl Hrun;
        simpl in Hrun.
      - injection Hrun as <-. exact Hl.
      - destruct (step l _) as [[s1 ev1 ex1]|] eqn:S1; [|discriminate].
        apply step_latch in S1; [|exact Hl]. eapply IH; eauto. }
    split; [exact H|]. intro Ht. apply positive_timeout in Ht.
    simpl. unfold ExpectClientCalledWriterWaitClosed_evaluate. now rewrite Ht, H.
  - intros Ht Hl. apply positive_timeout in Ht.
    simpl. unfold ExpectClientCalledWriterWaitClosed_evaluate.
    rewrite Ht, Hl. destruct s; simpl. auto.
  - intros Ht timed_out. apply non_positive_timeout in Ht.
    simpl. unfold ExpectClientCalledWriterWaitClosed_evaluate. now rewrite Ht.
  - reflexivity.
Qed.

Lemma wait_closed_latch_witness :
  evaluate (ExpectClientCalledWriterWaitClosed 1%Z) true
    (handle_client_connection 1 2 (client_writer_wait_closed new_server))
  = Done (Returns tt,
          handle_client_connection 1 2 (client_writer_wait_closed new_server))
  /\ evaluate (ExpectClientCalledWriterWaitClosed 0%Z) false
       (client_writer_wait_closed new_server)
     = Done (Raises (UnexpectedEventError ClientCalledWriterWaitClosed TimeoutEvent),
             client_writer_wait_closed new_server).
Proof.
  split.
  - destruct (wait_closed_latch 1%Z (client_writer_wait_closed new_server))
      as (H & _).
    destruct (H eq_refl [ClientConnects 1 2] AtGet AtGet _ true eq_refl) as [_ He].
    exact (He eq_refl).
  - destruct (wait_closed_latch 0%Z (client_writer_wait_closed new_server))
      as (_ & _ & H & _).
    apply H. discriminate.
Defined.

(** ** An action and the [evaluate] that waits for its event *)

(** X3.  [expect_bytes(B)] end to end.  The action of the step is running
    and its [evaluate] is waiting on an empty event queue, with no error so
    far.  When the read returns [received], the executor publishes
    [BytesReadEvent(received)] and the evaluator consumes it: no error is
    recorded exactly when [received] is [B]; otherwise the one error is the
    mismatch of the two byte strings.  When the read times out the one
    error is the timeout, reported as such.  In each case the step is
    marked processed and both tasks are back at their [get]. *)
Theorem expect_bytes_end_to_end :
  forall (B : bytes) (timeout : Timeout) (io : Transport) (timed_out : bool)
         (s : MockTcpServer) (n : nat),
    errors s = [] -> server_event_queue s = [] -> unfinished_tasks s = S n ->
    let sys := mkSystem s (Awaiting (ExpectBytes B timeout))
                        (Awaiting (ExpectBytes B timeout)) in
    (forall received,
        reader_call io s = Returns received ->
        exists sys',
          run [ExecutorResumes io; EvaluatorResumes timed_out] sys = Some sys'
          /\ (errors (server sys') = [] <-> received = B)
          /\ (received <> B ->
              errors (server sys')
              = [UnexpectedEventError (BytesReadEvent B) (BytesReadEvent received)])
          /\ server_event_queue (server sys') = []
          /\ unfinished_tasks (server sys') = n
          /\ evaluator_task sys' = AtGet /\ server_action_task sys' = AtGet)
    /\ (reader_call io s = Raises TimeoutError ->
        exists sys',
          run [ExecutorResumes io; EvaluatorResumes timed_out] sys = Some sys'
          /\ errors (server sys')
             = [UnexpectedEventError (BytesReadEvent B) TimeoutEvent]
          /\ unfinished_tasks (server sys') = n
          /\ forall repr_bytes str_exception,
               interpret_error repr_bytes str_exception
                 (UnexpectedEventError (BytesReadEvent B) TimeoutEvent)
               = ("Timed out waiting for " ++ repr_bytes B)%string).
Proof.
  intros B timeout io timed_out s n He Hq Hn sys. subst sys.
  split.
  - intros received Hr.
    cbn [run step]. unfold execute_server_actions_resume.
    cbn [server_action_task server server_action].
    unfold ExpectBytes_server_action. rewrite Hr. cbn [try_except].
    unfold evaluate_expectations_resume.
    cbn [evaluator_task server evaluate].
    unfold ExpectBytes_evaluate, get_event, put_event.
    destruct s; simpl in *; subst. simpl.
    destruct (bytes_eqb received B) eqn:E; simpl.
    + apply bytes_eqb_eq in E. subst.
      eexists. split; [reflexivity|]. simpl.
      repeat split; try reflexivity; try tauto; try congruence.
    + apply bytes_eqb_neq in E.
      eexists. split; [reflexivity|]. simpl.
      repeat split; try reflexivity; try tauto; try congruence; try discriminate.
  - intro Hr.
    cbn [run step]. unfold execute_server_actions_resume.
    cbn [server_action_task server server_action].
    unfold ExpectBytes_server_action. rewrite Hr. cbn [try_except].
    unfold evaluate_expectations_resume.
    cbn [evaluator_task server evaluate].
    unfold ExpectBytes_evaluate, get_event, put_event.
    destruct s; simpl in *; subst. simpl.
    eexists. split; [reflexivity|]. simpl. repeat split; reflexivity.
Qed.

Lemma expect_bytes_end_to_end_witness :
  exists sys',
    run [ExecutorResumes (mkTransport (Returns ["a"%byte; "b"%byte; "!"%byte])
                                      (Returns tt));
         EvaluatorResumes false]
      (mkSystem (set_expecations_queue [] 1 (set_connection 1 2 new_server))
                (Awaiting (ExpectBytes ["a"%byte; "b"%byte] 1%Z))
                (Awaiting (ExpectBytes ["a"%byte; "b"%byte] 1%Z)))
    = Some sys'
    /\ errors (server sys')
       = [UnexpectedEventError (BytesReadEvent ["a"%byte; "b"%byte])
            (BytesReadEvent ["a"%byte; "b"%byte; "!"%byte])].
Proof.
  destruct (expect_bytes_end_to_end ["a"%byte; "b"%byte] 1%Z
              (mkTransport (Returns ["a"%byte; "b"%byte; "!"%byte]) (Returns tt))
              false
              (set_expecations_queue [] 1 (set_connection 1 2 new_server)) 0
              eq_refl eq_refl eq_refl) as [H _].
  destruct (H ["a"%byte; "b"%byte; "!"%byte] eq_refl)
    as (sys' & Hrun & _ & Hne & _).
  exists sys'. split; [exact Hrun|]. apply Hne. discriminate.
Defined.

(** X4.  The check of the ledgers end to end.  The action of
    [ExpectClientReadAllSentBytes] is running and its [evaluate] is waiting
    on an empty event queue, with no error so far.  If the peer has read
    all that was sent, no error is recorded.  If it has read a proper
    prefix, the one error carries the unread suffix, and [interpret_error]
    names it.  If what it has read is not a prefix of what was sent, the
    [assert] fails: the executor records the [AssertionError] first, the
    [evaluate] records a second error on the [ExceptionEvent], and the
    message [join] will raise is the fallback made of the
    [AssertionError]. *)
Theorem unread_data_end_to_end :
  forall (timeout : Timeout) (io : Transport) (timed_out : bool)
         (s : MockTcpServer) (n : nat),
    errors s = [] -> server_event_queue s = [] -> unfinished_tasks s = S n ->
    let sys := mkSystem s (Awaiting (ExpectClientReadAllSentBytes timeout))
                        (Awaiting (ExpectClientReadAllSentBytes timeout)) in
    exists sys',
      run [ExecutorResumes io; EvaluatorResumes timed_out] sys = Some sys'
      /\ unfinished_tasks (server sys') = n
      /\ evaluator_task sys' = AtGet /\ server_action_task sys' = AtGet
      /\ (data_read_by_client s = data_sent_from_server s ->
          errors (server sys') = [])
      /\ (forall suffix,
            data_sent_from_server s = data_read_by_client s ++ suffix ->
            suffix <> [] ->
            errors (server sys')
            = [UnexpectedEventError NoRemainingSentData (UnreadSentBytes suffix)]
            /\ forall repr_bytes str_exception,
                 interpret_error repr_bytes str_exception
                   (UnexpectedEventError NoRemainingSentData (UnreadSentBytes suffix))
                 = ("There is data sent by server that was not read by client: unread_bytes="
                      ++ repr_bytes suffix ++ ".")%string)
      /\ (startswith (data_sent_from_server s) (data_read_by_client s) = false ->
          errors (server sys')
          = [AssertionError;
             UnexpectedEventError NoRemainingSentData (ExceptionEvent AssertionError)]
          /\ forall repr_bytes str_exception,
               join_already_failed s = false -> n = 0 ->
               join repr_bytes str_exception (server sys')
               = JoinRaised
                   (PlainException
                      ("Cannot interpret " ++ str_exception AssertionError)%string)
                   (set_join_already_failed true (server sys'))).
Proof.
  intros timeout io timed_out s n He Hq Hn sys. subst sys.
  cbn [run step]. unfold execute_server_actions_resume.
  cbn [server_action_task server server_action].
  rewrite ExpectClientReadAllSentBytes_server_action_body.
  unfold compare_ledgers.
  destruct (bytes_eqb (data_read_by_client s) (data_sent_from_server s)) eqn:E.
  - apply bytes_eqb_eq in E.
    unfold evaluate_expectations_resume. cbn [evaluator_task server evaluate].
    unfold ExpectClientReadAllSentBytes_evaluate, get_event, put_event.
    destruct s; simpl in *; subst. simpl.
    eexists. split; [reflexivity|]. simpl.
    split; [reflexivity|]. split; [reflexivity|]. split; [reflexivity|].
    split; [reflexivity|]. split.
    + intros suffix Hs Hne. exfalso. apply Hne.
      rewrite <- (app_nil_r data_sent_from_server0) in Hs at 1.
      now apply app_inv_head in Hs.
    + intro P. exfalso.
      rewrite <- (app_nil_r data_sent_from_server0) in P at 1.
      rewrite startswith_app in P. discriminate.
  - apply bytes_eqb_neq in E.
    destruct (startswith (data_sent_from_server s) (data_read_by_client s)) eqn:P.
    + apply startswith_prefix in P. destruct P as [suffix0 P].
      unfold evaluate_expectations_resume. cbn [evaluator_task server evaluate].
      unfold ExpectClientReadAllSentBytes_evaluate, get_event, put_event.
      destruct s; simpl in *; subst. simpl.
      rewrite slice_from_app.
      eexists. split; [reflexivity|]. simpl.
      split; [reflexivity|]. split; [reflexivity|]. split; [reflexivity|].
      split; [|split].
      * intro Heq. contradiction.
      * intros suffix Hs Hne. apply app_inv_head in Hs. subst.
        split; reflexivity.
      * discriminate.
    + cbn [is_Exception].
      unfold evaluate_expectations_resume. cbn [evaluator_task server evaluate].
      unfold ExpectClientReadAllSentBytes_evaluate, get_event, put_event, error.
      destruct s; simpl in *; subst. simpl.
      eexists. split; [reflexivity|]. simpl.
      split; [reflexivity|]. split; [reflexivity|]. split; [reflexivity|].
      split; [|split].
      * intro Heq. contradiction.
      * intros suffix Hs Hne. rewrite Hs, startswith_app in P. discriminate.
      * intros _. split; [reflexivity|].
        intros repr_bytes str_exception -> ->. reflexivity.
Qed.

Lemma unread_data_end_to_end_witness :
  exists sys',
    run [ExecutorResumes (mkTransport (Returns []) (Returns tt));
         EvaluatorResumes false]
      (mkSystem (set_expecations_queue [] 1
                   (client_read ["a"%byte]
                      (set_data_sent_from_server ["a"%byte; "b"%byte; "c"%byte]
                         (set_connection 1 2 new_server))))
                (Awaiting (ExpectClientReadAllSentBytes 1%Z))
                (Awaiting (ExpectClientReadAllSentBytes 1%Z)))
    = Some sys'
    /\ errors (server sys')
       = [UnexpectedEventError NoRemainingSentData
            (UnreadSentBytes ["b"%byte; "c"%byte])].
Proof.
  destruct (unread_data_end_to_end 1%Z (mkTransport (Returns []) (Returns tt)) false
              (set_expecations_queue [] 1
                 (client_read ["a"%byte]
                    (set_data_sent_from_server ["a"%byte; "b"%byte; "c"%byte]
                       (set_connection 1 2 new_server))))
              0 eq_refl eq_refl eq_refl)
    as (sys' & Hrun & _ & _ & _ & _ & Hsuffix & _).
  exists sys'. split; [exact Hrun|].
  apply (Hsuffix ["b"%byte; "c"%byte]); [reflexivity | discriminate].
Defined.

(** ** The executor *)

Ltac unfold_actions :=
  unfold ExpectConnect_server_action,
    ExpectClientCalledWriterWaitClosed_server_action,
    ExpectBytes_server_action, ExpectReadZeroBytes_server_action,
    ExpectClientReadAllSentBytes_server_action, SendBytes_server_action,
    try_except, compare_ledgers.

(** Which actions return an event, return [None], or raise. *)
Lemma server_action_result : forall a io s,
  match fst (server_action a io s) with
  | Returns (Some _) => waits_for_event a = true /\ snd (server_action a io s) = s
  | Returns None =>
      waits_for_event a = false
      /\ errors (snd (server_action a io s)) = errors s
      /\ server_event_queue (snd (server_action a io s)) = server_event_queue s
  | Raises _ => waits_for_event a = true /\ snd (server_action a io s) = s
  end.
Proof.
  intros a io s. destruct a; simpl; unfold_actions; simpl; auto.
  - destruct (reader_call io s) as [?|[]]; simpl; auto.
  - destruct (reader_call io s) as [[|? ?]|[]]; simpl; auto.
  - destruct (bytes_eqb _ _); [|destruct (startswith _ _)]; simpl; auto.
  - destruct (writer_call io s); simpl; auto.
Qed.

(** X5.  What the executor leaves behind when an action completes.  When
    it goes back to its [get], it has published exactly one event if the
    step is one whose [evaluate] waits for the event queue ([ExpectBytes],
    [ExpectReadZeroBytes], [ExpectClientReadAllSentBytes]) and none
    otherwise.  It records at most one error, and only together with the
    [ExceptionEvent] that carries it.  It ends, recording and publishing
    nothing, only when the action raised something that is not an
    [Exception].  The evaluator is not touched. *)
Theorem one_event_per_completed_action :
  forall (a : Expectation) (io : Transport) (s : MockTcpServer)
         (evaluator : TaskState) (sys' : System),
    execute_server_actions_resume io (mkSystem s evaluator (Awaiting a)) = Some sys' ->
    evaluator_task sys' = evaluator
    /\ (server_action_task sys' = AtGet ->
        List.length (server_event_queue (server sys'))
        = List.length (server_event_queue s) + (if waits_for_event a then 1 else 0))
    /\ (errors (server sys') = errors s
        \/ exists e,
             fst (server_action a io s) = Raises e
             /\ is_Exception e = true
             /\ errors (server sys') = errors s ++ [e]
             /\ server_event_queue (server sys')
                = server_event_queue s ++ [ExceptionEvent e])
    /\ (forall e,
          server_action_task sys' = Terminated e ->
          fst (server_action a io s) = Raises e
          /\ is_Exception e = false
          /\ server sys' = s)
    /\ (server_action_task sys' = AtGet
        \/ exists e, server_action_task sys' = Terminated e).
Proof.
  intros a io s evaluator sys' H.
  unfold execute_server_actions_resume in H.
  cbn [server_action_task server evaluator_task] in H.
  pose proof (server_action_result a io s) as R.
  destruct (server_action a io s) as [[[ev|]|e] s1] eqn:Ac; cbn [fst snd] in *.
  - destruct R as [Hw ->]. injection H as <-.
    cbn [server evaluator_task server_action_task]. rewrite Hw.
    split; [reflexivity|]. split.
    + intros _. unfold put_event. destruct s; simpl.
      rewrite length_app. reflexivity.
    + split; [left; now destruct s|]. split; [discriminate | now left].
  - destruct R as (Hw & E1 & E2). injection H as <-.
    cbn [server evaluator_task server_action_task].
    rewrite Hw, E2, Nat.add_0_r.
    split; [reflexivity|]. split; [reflexivity|].
    split; [now left|]. split; [discriminate | now left].
  - destruct R as [Hw ->].
    destruct (is_Exception e) eqn:Ex; injection H as <-;
      cbn [server evaluator_task server_action_task].
    + rewrite Hw. split; [reflexivity|]. split.
      * intros _. unfold put_event, error. destruct s; simpl.
        rewrite length_app. reflexivity.
      * split; [|split; [discriminate | now left]].
        right. exists e. unfold put_event, error. destruct s; simpl. auto.
    + split; [reflexivity|]. split; [discriminate|].
      split; [now left|]. split; [|right; eauto].
      intros e0 He0. injection He0 as <-. auto.
Qed.

Lemma one_event_per_completed_action_witness :
  List.length
    (server_event_queue
       (put_event (ExceptionEvent AttributeError) (error AttributeError new_server)))
  = List.length (server_event_queue new_server) + 1.
Proof.
  destruct (one_event_per_completed_action (ExpectBytes ["a"%byte] 1%Z)
              (mkTransport (Returns []) (Returns tt)) new_server AtGet
              (mkSystem (put_event (ExceptionEvent AttributeError)
                           (error AttributeError new_server))
                        AtGet AtGet) eq_refl) as (_ & H & _).
  exact (H eq_refl).
Defined.

(** ** The error sink *)

(** X6.  [errors] is append-only, so the first recorded error stays the
    first: whatever the engine goes through after an error has been
    recorded, the errors recorded before are still there, in front and in
    the same order, and the message that a [join] raises, whenever it comes
    to raise, is the one of that first error. *)
Theorem first_error_is_kept :
  forall (repr_bytes : bytes -> string) (str_exception : PyException -> string)
         (ls : list Label) (sys sys' : System) (first : PyException)
         (rest : list PyException),
    run ls sys = Some sys' ->
    errors (server sys) = first :: rest ->
    (exists more, errors (server sys') = first :: rest ++ more)
    /\ forall e s',
         join repr_bytes str_exception (server sys') = JoinRaised e s' ->
         e = PlainException (interpret_error repr_bytes str_exception first).
Proof.
  intros repr_bytes str_exception ls sys sys' first rest Hrun He.
  destruct (run_errors _ _ _ Hrun) as [more Hmore]. rewrite He in Hmore.
  split; [now exists more|].
  intros e s' Hj. unfold join in Hj. rewrite Hmore in Hj. simpl in Hj.
  destruct (join_already_failed (server sys')); [discriminate|].
  destruct (unfinished_tasks (server sys') =? 0); [|discriminate].
  now injection Hj as <- _.
Qed.

Lemma first_error_is_kept_witness :
  exists sys',
    run [CallExpectConnect 1%Z; CallExpectBytes ["a"%byte] 1%Z;
         EvaluatorGets; EvaluatorResumes true; EvaluatorGets] start = Some sys'
    /\ join (fun _ => ""%string) (fun _ => ""%string) (server sys')
       = JoinRaised (PlainException "Timed out waiting for client to connect")
           (set_join_already_failed true (server sys')).
Proof.
  eexists. split; [vm_compute; reflexivity|].
  match goal with
  | |- join ?r ?x (server ?sys') = JoinRaised _ ?s' =>
      destruct (first_error_is_kept r x [EvaluatorGets]
                  (mkSystem
                     (error (UnexpectedEventError ClientConnectedEvent TimeoutEvent)
                        (set_expecations_queue [ExpectBytes ["a"%byte] 1%Z] 1
                           (set_server_actions [ExpectConnect 1%Z] new_server)))
                     AtGet AtGet)
                  sys'
                  (UnexpectedEventError ClientConnectedEvent TimeoutEvent) []
                  ltac:(vm_compute; reflexivity) eq_refl) as [_ H];
      rewrite (H (PlainException "Timed out waiting for client to connect") s'
                 ltac:(vm_compute; reflexivity))
  end.
  vm_compute; reflexivity.
Defined.

(** ** The counter of the expectation queue *)

(** X7.  In every state a started engine can reach, the evaluator task has
    not ended ([task_done] is never called more often than [get] returned,
    so it never raises [ValueError], and no [evaluate] raises anything the
    loop does not catch); the counter of the expectation queue is the number
    of queued steps plus one while a step is being evaluated; so a [join]
    that is not short-circuited waits exactly while a step is queued or
    being evaluated. *)
Theorem join_waits_for_the_evaluator :
  forall (repr_bytes : bytes -> string) (str_exception : PyException -> string)
         (sys : System),
    reachable sys ->
    (forall e, evaluator_task sys <> Terminated e)
    /\ unfinished_tasks (server sys)
       = List.length (expecations_queue (server sys))
         + match evaluator_task sys with Awaiting _ => 1 | _ => 0 end
    /\ (join_already_failed (server sys) = false ->
        (join repr_bytes str_exception (server sys) = JoinWaiting
         <-> expecations_queue (server sys) <> []
             \/ exists e, evaluator_task sys = Awaiting e)).
Proof.
  intros repr_bytes str_exception sys Hr.
  pose proof (reachable_scheduler_invariant _ Hr) as Inv.
  destruct sys as [s ev ex]. unfold scheduler_invariant in Inv.
  cbn [server evaluator_task] in *.
  destruct ev as [|e|x]; [| destruct Inv as [Inv _] | destruct Inv].
  - split; [discriminate|]. split; [lia|].
    intro Hf. unfold join. rewrite Hf, Inv.
    destruct (expecations_queue s) as [|e0 q]; simpl.
    + split.
      * destruct (errors s); discriminate.
      * intros [H|[e H]]; [contradiction | discriminate].
    + split; [intros _; left; discriminate | reflexivity].
  - split; [discriminate|]. split; [lia|].
    intro Hf. unfold join. rewrite Hf, Inv. simpl.
    split; [intros _; right; eauto | reflexivity].
Qed.

Lemma join_waits_for_the_evaluator_witness :
  join (fun _ => ""%string) (fun _ => ""%string)
    (snd (send_bytes ["x"%byte] new_server)) = JoinWaiting.
Proof.
  assert (Hr : reachable (mkSystem (snd (send_bytes ["x"%byte] new_server)) AtGet AtGet))
    by (exists [CallSendBytes ["x"%byte]]; vm_compute; reflexivity).
  destruct (join_waits_for_the_evaluator (fun _ => ""%string) (fun _ => ""%string)
              _ Hr) as (_ & _ & H).
  apply (H eq_refl). left. discriminate.
Defined.

(** ** The connection *)

Lemma step_connection : forall l sys sys',
  step l sys = Some sys' ->
  (connected (server sys) = true ->
   connected (server sys') = true
   /\ reader (server sys') = reader (server sys)
   /\ writer (server sys') = writer (server sys))
  /\ (connected (server sys') = false -> connected (server sys) = false)
  /\ ((connected (server sys) = false -> reader (server sys) = None) ->
      connected (server sys') = false -> reader (server sys') = None).
Proof.
  intros l [s ev ex] sys' H.
  destruct l; unfold_step H; break_step H; use_effects s;
    destruct s; simpl in *; subst; repeat split; auto; try discriminate.
Qed.

(** X8.  The engine serves one connection.  Once [connected] is true it
    stays true and the registered [reader] and [writer] are never replaced,
    whatever happens later, further connection attempts included; and on a
    started engine there is no registered reader before the first
    connection, so that an [ExpectBytes] action run then raises
    [AttributeError] instead of reading. *)
Theorem first_connection_is_kept :
  forall (ls : list Label) (sys sys' : System),
    run ls sys = Some sys' ->
    (connected (server sys) = true ->
     connected (server sys') = true
     /\ reader (server sys') = reader (server sys)
     /\ writer (server sys') = writer (server sys))
    /\ (sys = start ->
        connected (server sys') = false ->
        reader (server sys') = None
        /\ forall B timeout io,
             fst (server_action (ExpectBytes B timeout) io (server sys'))
             = Raises AttributeError).
Proof.
  intros ls sys sys' Hrun. split.
  - revert sys Hrun. induction ls as [|l ls IH]; intros sys Hrun Hc; simpl in Hrun.
    + injection Hrun as <-. auto.
    + destruct (step l sys) as [sys1|] eqn:S1; [|discriminate].
      destruct (step_connection _ _ _ S1) as [H1 _]. destruct (H1 Hc) as (C1 & R1 & W1).
      destruct (IH _ Hrun C1) as (C2 & R2 & W2). rewrite R2, W2. auto.
  - intros -> Hc.
    assert (Hr : forall sys,
               (connected (server sys) = false -> reader (server sys) = None) ->
               run ls sys = Some sys' -> reader (server sys') = None).
    { clear Hrun. induction ls as [|l ls IH]; intros sys Hinv Hrun; simpl in Hrun.
      - injection Hrun as <-. auto.
      - destruct (step l sys) as [sys1|] eqn:S1; [|discriminate].
        apply (IH sys1); [|exact Hrun].
        destruct (step_connection _ _ _ S1) as (_ & _ & H3). auto. }
    assert (Hnone : reader (server sys') = None) by (apply (Hr start); auto).
    split; [exact Hnone|].
    intros B timeout io. simpl. unfold ExpectBytes_server_action, reader_call.
    now rewrite Hnone.
Qed.

Lemma first_connection_is_kept_witness :
  exists sys',
    run [ClientConnects 3 4; ClientReads ["a"%byte]; ClientConnects 5 6]
      (mkSystem (handle_client_connection 1 2 new_server) AtGet AtGet) = Some sys'
    /\ reader (server sys') = Some 1 /\ writer (server sys') = Some 2.
Proof.
  destruct (run [ClientConnects 3 4; ClientReads ["a"%byte]; ClientConnects 5 6]
              (mkSystem (handle_client_connection 1 2 new_server) AtGet AtGet))
    as [sys'|] eqn:Hrun; [|cbv in Hrun; discriminate Hrun].
  exists sys'. split; [reflexivity|].
  destruct (first_connection_is_kept _ _ _ Hrun) as [H _].
  destruct (H eq_refl) as (_ & R & W). rewrite R, W. split; reflexivity.
Defined.

(** ** After an error *)

Lemma step_no_action_after_error : forall l sys sys',
  step l sys = Some sys' ->
  errors (server sys) <> [] ->
  (forall a, server_action_task sys <> Awaiting a) ->
  (forall a, server_action_task sys' <> Awaiting a)
  /\ server_action_task sys' = server_action_task sys
  /\ data_sent_from_server (server sys') = data_sent_from_server (server sys)
  /\ performed_send l sys = [].
Proof.
  intros l [s ev ex] sys' H He Hx. unfold performed_send.
  cbn [server server_action_task] in *.
  destruct l; unfold_step H; break_step H; use_effects s;
    try (exfalso; eapply Hx; reflexivity);
    destruct s; simpl in *; subst; try contradiction;
    repeat split; auto; try discriminate;
    destruct ex; auto; exfalso; eapply Hx; reflexivity.
Qed.

(** X9.  Once an error is recorded and the executor is not in the middle
    of an action, no action is ever run again: whatever is declared and
    whatever happens, the executor never starts an action (it only drops
    them), no [SendBytes] write is performed, and the ledger of sent bytes
    stays as it is. *)
Theorem no_action_after_error :
  forall (ls : list Label) (sys sys' : System),
    run ls sys = Some sys' ->
    errors (server sys) <> [] ->
    (forall a, server_action_task sys <> Awaiting a) ->
    (forall a, server_action_task sys' <> Awaiting a)
    /\ server_action_task sys' = server_action_task sys
    /\ observe started_action ls sys = []
    /\ performed_sends ls sys = []
    /\ data_sent_from_server (server sys') = data_sent_from_server (server sys).
Proof.
  induction ls as [|l ls IH]; intros sys sys' Hrun He Hx; simpl in Hrun |- *.
  - injection Hrun as <-. auto.
  - destruct (step l sys) as [sys1|] eqn:S1; [|discriminate].
    destruct (step_no_action_after_error _ _ _ S1 He Hx) as (X1 & T1 & D1 & P1).
    assert (He1 : errors (server sys1) <> []).
    { apply (run_errors_nonempty [l] sys sys1); [simpl; now rewrite S1 | exact He]. }
    destruct (IH _ _ Hrun He1 X1) as (X2 & T2 & O2 & P2 & D2).
    rewrite P1, P2, O2, D2, D1, T2, T1.
    repeat split; auto.
    unfold started_action. destruct (errors (server sys)); [contradiction | reflexivity].
Qed.

Lemma no_action_after_error_witness :
  exists sys',
    run [ExecutorGets; CallSendBytes ["y"%byte]; EvaluatorGets; ClientConnects 1 2]
      (mkSystem (error AssertionError
                   (set_server_actions [SendBytes ["x"%byte]] new_server))
                AtGet AtGet) = Some sys'
    /\ data_sent_from_server (server sys') = [] /\ server_action_task sys' = AtGet.
Proof.
  destruct (run [ExecutorGets; CallSendBytes ["y"%byte]; EvaluatorGets;
                 ClientConnects 1 2]
              (mkSystem (error AssertionError
                           (set_server_actions [SendBytes ["x"%byte]] new_server))
                        AtGet AtGet))
    as [sys'|] eqn:Hrun; [|cbv in Hrun; discriminate Hrun].
  exists sys'. split; [reflexivity|].
  destruct (no_action_after_error _ _ _ Hrun) as (_ & T & _ & _ & D).
  - discriminate.
  - discriminate.
  - rewrite T, D. split; reflexivity.
Defined.

(** ** The order of evaluation and of execution *)

Ltac finish_fifo :=
  try match goal with
      | Hnil : _ ++ [_] = [] |- _ =>
          exfalso; apply app_eq_nil in Hnil; destruct Hnil; discriminate
      end;
  repeat match goal with
         | |- context [match ?x with _ => _ end] => is_var x; destruct x
         end;
  simpl; rewrite ?app_nil_r, <- ?app_assoc; simpl;
  try reflexivity; try discriminate; try congruence; auto.

Lemma step_fifo : forall l sys sys',
  step l sys = Some sys' ->
  taken_step l sys ++ expecations_queue (server sys')
  = expecations_queue (server sys) ++ declared_steps l sys
  /\ taken_action l sys ++ server_actions (server sys')
     = server_actions (server sys) ++ dispatched_step l sys
  /\ (errors (server sys') = [] ->
      dispatched_step l sys = taken_step l sys
      /\ started_action l sys = taken_action l sys).
Proof.
  intros l [s ev ex] sys' H.
  unfold dispatched_step, started_action, declared_steps, taken_step, taken_action.
  cbn [server evaluator_task server_action_task].
  destruct l; unfold_step H; break_step H; use_effects s;
    destruct s; simpl in *; subst; simpl;
    (split; [|split; [|intro Hnil; simpl in Hnil; split]]); finish_fifo.
Qed.

(** X10.  Both queues are first-in first-out along every run.  The steps
    the evaluator takes, followed by those still queued, are the steps that
    were queued at the beginning followed by the declared ones, in the order
    of declaration ([expect_disconnect] declaring its three steps in their
    fixed order; a call on a stopped engine declaring nothing).  The actions
    the executor takes, followed by those still queued, are the actions
    that were queued followed by those of the steps the evaluator
    dispatched.  While no error is recorded every step taken is dispatched
    and every action taken is run; so a run that starts and ends with empty
    queues and without error has run the actions of exactly the declared
    steps, in the order of declaration. *)
Theorem queues_are_fifo :
  forall (ls : list Label) (sys sys' : System),
    run ls sys = Some sys' ->
    observe taken_step ls sys ++ expecations_queue (server sys')
    = expecations_queue (server sys) ++ observe declared_steps ls sys
    /\ observe taken_action ls sys ++ server_actions (server sys')
       = server_actions (server sys) ++ observe dispatched_step ls sys
    /\ (errors (server sys') = [] ->
        observe dispatched_step ls sys = observe taken_step ls sys
        /\ observe started_action ls sys = observe taken_action ls sys)
    /\ (errors (server sys') = [] ->
        expecations_queue (server sys) = [] -> server_actions (server sys) = [] ->
        expecations_queue (server sys') = [] -> server_actions (server sys') = [] ->
        observe started_action ls sys = observe declared_steps ls sys).
Proof.
  assert (Hmain : forall ls sys sys',
             run ls sys = Some sys' ->
             observe taken_step ls sys ++ expecations_queue (server sys')
             = expecations_queue (server sys) ++ observe declared_steps ls sys
             /\ observe taken_action ls sys ++ server_actions (server sys')
                = server_actions (server sys) ++ observe dispatched_step ls sys
             /\ (errors (server sys') = [] ->
                 observe dispatched_step ls sys = observe taken_step ls sys
                 /\ observe started_action ls sys = observe taken_action ls sys)).
  { induction ls as [|l ls IH]; intros sys sys' Hrun; simpl in Hrun |- *.
    - injection Hrun as <-. rewrite !app_nil_r. auto.
    - destruct (step l sys) as [sys1|] eqn:S1; [|discriminate].
      destruct (step_fifo _ _ _ S1) as (Q1 & A1 & E1).
      destruct (IH _ _ Hrun) as (Q2 & A2 & E2).
      split; [|split].
      + rewrite <- app_assoc, Q2, app_assoc, Q1, <- app_assoc. reflexivity.
      + rewrite <- app_assoc, A2, app_assoc, A1, <- app_assoc. reflexivity.
      + intro He. destruct (E2 He) as [D2 S2].
        destruct (E1 (run_errors_empty _ _ _ Hrun He)) as [D1 St1].
        now rewrite D1, D2, St1, S2. }
  intros ls sys sys' Hrun. destruct (Hmain _ _ _ Hrun) as (Q & A & E).
  split; [exact Q|]. split; [exact A|]. split; [exact E|].
  intros He Hq Ha Hq' Ha'. destruct (E He) as [D S].
  rewrite Hq, Hq', app_nil_r in Q. rewrite Ha, Ha', app_nil_r in A.
  simpl in Q, A. congruence.
Qed.

Lemma queues_are_fifo_witness :
  exists sys',
    run [CallSendBytes ["a"%byte]; CallExpectDisconnect 1%Z; EvaluatorGets;
         EvaluatorResumes false; EvaluatorGets] start = Some sys'
    /\ observe taken_step
         [CallSendBytes ["a"%byte]; CallExpectDisconnect 1%Z; EvaluatorGets;
          EvaluatorResumes false; EvaluatorGets] start
       ++ expecations_queue (server sys')
       = [SendBytes ["a"%byte]; ExpectReadZeroBytes 1%Z;
          ExpectClientCalledWriterWaitClosed 1%Z; ExpectClientReadAllSentBytes 1%Z].
Proof.
  destruct (run [CallSendBytes ["a"%byte]; CallExpectDisconnect 1%Z; EvaluatorGets;
                 EvaluatorResumes false; EvaluatorGets] start)
    as [sys'|] eqn:Hrun; [|cbv in Hrun; discriminate Hrun].
  exists sys'. split; [reflexivity|].
  destruct (queues_are_fifo _ _ _ Hrun) as (Q & _).
  rewrite Q. vm_compute. reflexivity.
Defined.

(** ** Teardown *)

Lemma not_Exception_is_cancelled : forall e,
  is_Exception e = false -> e = CancelledError.
Proof. intros e H. destruct e; try discriminate; reflexivity. Qed.

Lemma step_executor_ends_cancelled : forall l sys sys',
  step l sys = Some sys' ->
  (forall e, server_action_task sys = Terminated e -> e = CancelledError) ->
  forall e, server_action_task sys' = Terminated e -> e = CancelledError.
Proof.
  intros l [s ev ex] sys' H Hx. cbn [server_action_task] in Hx.
  destruct l; unfold_step H; break_step H; use_effects s;
    cbn [server_action_task]; intros e0 He0; auto; try discriminate.
  injection He0 as <-. now apply not_Exception_is_cancelled.
Qed.

Lemma reachable_executor_ends_cancelled : forall sys,
  reachable sys ->
  forall e, server_action_task sys = Terminated e -> e = CancelledError.
Proof.
  intros sys [ls Hrun].
  assert (H : forall ls s0,
             (forall e, server_action_task s0 = Terminated e -> e = CancelledError) ->
             run ls s0 = Some sys ->
             forall e, server_action_task sys = Terminated e -> e = CancelledError).
  { clear. induction ls as [|l ls IH]; intros s0 H0 Hrun; simpl in Hrun.
    - now injection Hrun as <-.
    - destruct (step l s0) as [s1|] eqn:S1; [|discriminate].
      eapply IH; [|exact Hrun]. eapply step_executor_ends_cancelled; eauto. }
  apply (H ls start); [discriminate | exact Hrun].
Qed.

Lemma engine_state_invariants : forall sys,
  engine_state sys ->
  scheduler_invariant sys
  /\ forall e, server_action_task sys = Terminated e -> e = CancelledError.
Proof.
  intros sys H. induction H as [|l sys sys' _ [Inv Hx] Hstep
                                |repr_bytes str_exception sys e s' _ [Inv Hx] Hj].
  - split; [reflexivity | discriminate].
  - split.
    + eapply step_scheduler_invariant; eauto.
    + eapply step_executor_ends_cancelled; eauto.
  - unfold join in Hj.
    destruct (join_already_failed (server sys)); [discriminate|].
    destruct (unfinished_tasks (server sys) =? 0); [|discriminate].
    destruct (errors (server sys)); [discriminate|].
    injection Hj as _ <-.
    destruct sys as [s ev ex]. unfold scheduler_invariant in *.
    cbn [server evaluator_task server_action_task with_server] in *.
    split; [|exact Hx]. destruct s; exact Inv.
Qed.

Lemma engine_state_run : forall ls sys sys',
  engine_state sys -> run ls sys = Some sys' -> engine_state sys'.
Proof.
  induction ls as [|l ls IH]; intros sys sys' H Hrun; simpl in Hrun.
  - now injection Hrun as <-.
  - destruct (step l sys) as [sys1|] eqn:S1; [|discriminate].
    eapply IH; [|exact Hrun]. eapply engine_step; eauto.
Qed.

(** X11.  [stop] on a started engine, on which [join] may have been called
    before.  When its [join] has completed,
    [stop] has set [stopped] and cancelled both tasks; it raises exactly
    what its [join] raised (the message of the first error, unless a
    [join] had already failed) and otherwise returns.  A second [stop]
    returns at once without raising and changes nothing.  From then on each
    call of the declaration API raises ["Fixture is stopped"] and leaves the
    engine as it is, and neither task takes a step any more. *)
Theorem stop_then_stop :
  forall (repr_bytes : bytes -> string) (str_exception : PyException -> string)
         (sys sys1 : System) (r : Outcome unit),
    engine_state sys ->
    stop repr_bytes str_exception sys = Done (r, sys1) ->
    stopped (server sys1) = true
    /\ evaluator_task sys1 = Terminated CancelledError
    /\ server_action_task sys1 = Terminated CancelledError
    /\ errors (server sys1) = errors (server sys)
    /\ (join_already_failed (server sys) = true -> r = Returns tt)
    /\ (join_already_failed (server sys) = false ->
        unfinished_tasks (server sys) = 0
        /\ r = match errors (server sys) with
               | [] => Returns tt
               | first :: _ =>
                   Raises (PlainException
                             (interpret_error repr_bytes str_exception first))
               end)
    /\ stop repr_bytes str_exception sys1 = Done (Returns tt, sys1)
    /\ (forall timeout expected_bytes data,
          expect_connect timeout (server sys1)
          = (Raises (PlainException "Fixture is stopped"), server sys1)
          /\ expect_bytes expected_bytes timeout (server sys1)
             = (Raises (PlainException "Fixture is stopped"), server sys1)
          /\ send_bytes data (server sys1)
             = (Raises (PlainException "Fixture is stopped"), server sys1)
          /\ expect_disconnect timeout (server sys1)
             = (Raises (PlainException "Fixture is stopped"), server sys1))
    /\ (forall timed_out io,
          step EvaluatorGets sys1 = None
          /\ step (EvaluatorResumes timed_out) sys1 = None
          /\ step ExecutorGets sys1 = None
          /\ step (ExecutorResumes io) sys1 = None).
Proof.
  intros repr_bytes str_exception sys sys1 r Hr Hstop.
  destruct (engine_state_invariants _ Hr) as [Inv Hx].
  destruct sys as [s ev ex]. unfold scheduler_invariant in Inv.
  cbn [server evaluator_task server_action_task] in *.
  assert (Hev : cancel_and_await ev = Returns (Terminated CancelledError)).
  { destruct ev; [reflexivity | reflexivity | destruct Inv]. }
  assert (Hex : cancel_and_await ex = Returns (Terminated CancelledError)).
  { destruct ex as [| |e]; try reflexivity. now rewrite (Hx e eq_refl). }
  clear Inv Hx Hr.
  unfold stop, join in Hstop. cbn [server evaluator_task server_action_task] in Hstop.
  destruct (join_already_failed s) eqn:Hf.
  - unfold stop_finally in Hstop.
    cbn [server evaluator_task server_action_task] in Hstop.
    rewrite Hev, Hex in Hstop. injection Hstop as <- <-.
    unfold stop, join, stop_finally, expect_connect, expect_bytes, send_bytes,
      expect_disconnect, check_not_stopped.
    destruct s; simpl in *; subst. simpl.
    repeat split; try reflexivity; try discriminate.
  - destruct (unfinished_tasks s =? 0) eqn:Hn.
    + apply Nat.eqb_eq in Hn.
      destruct (errors s) as [|first rest] eqn:He;
        unfold stop_finally in Hstop;
        cbn [server evaluator_task server_action_task] in Hstop;
        rewrite Hev, Hex in Hstop; injection Hstop as <- <-;
        unfold stop, join, stop_finally, expect_connect, expect_bytes, send_bytes,
          expect_disconnect, check_not_stopped;
        destruct s; simpl in *; subst; simpl;
        repeat split; try reflexivity; try discriminate.
    + destruct (errors s); discriminate.
Qed.

Lemma stop_then_stop_witness :
  let sys := mkSystem
               (error (UnexpectedEventError ClientConnectedEvent TimeoutEvent)
                  (set_server_actions [ExpectConnect 1%Z] new_server))
               AtGet AtGet in
  exists sys1 sys2,
    stop (fun _ => ""%string) (fun _ => ""%string) sys
    = Done (Raises (PlainException "Timed out waiting for client to connect"),
            sys1)
    /\ stop (fun _ => ""%string) (fun _ => ""%string) sys1 = Done (Returns tt, sys1)
    /\ stop (fun _ => ""%string) (fun _ => ""%string)
         (with_server sys (set_join_already_failed true (server sys)))
       = Done (Returns tt, sys2).
Proof.
  intro sys.
  assert (He : engine_state sys).
  { apply (engine_state_run
             [CallExpectConnect 1%Z; EvaluatorGets; EvaluatorResumes true] start);
      [apply engine_started | vm_compute; reflexivity]. }
  assert (Hj : join (fun _ => ""%string) (fun _ => ""%string) (server sys)
               = JoinRaised
                   (PlainException "Timed out waiting for client to connect")
                   (set_join_already_failed true (server sys)))
    by (vm_compute; reflexivity).
  pose proof (engine_join_raised _ _ _ _ _ He Hj) as He'.
  destruct (stop (fun _ => ""%string) (fun _ => ""%string) sys)
    as [|[r1 sys1]] eqn:Hstop; [vm_compute in Hstop; discriminate Hstop|].
  destruct (stop (fun _ => ""%string) (fun _ => ""%string)
              (with_server sys (set_join_already_failed true (server sys))))
    as [|[r2 sys2]] eqn:Hstop2; [vm_compute in Hstop2; discriminate Hstop2|].
  destruct (stop_then_stop _ _ _ _ _ He Hstop) as (_ & _ & _ & _ & _ & R1 & S1 & _).
  destruct (stop_then_stop _ _ _ _ _ He' Hstop2) as (_ & _ & _ & _ & R2 & _).
  destruct (R1 eq_refl) as [_ Hr1]. simpl in Hr1.
  rewrite Hr1, (R2 eq_refl).
  exists sys1, sys2. repeat split. exact S1.
Defined.

(** ** Disconnect *)

Ltac run_two_steps s :=
  cbn [run step]; unfold execute_server_actions_resume;
  cbn [server_action_task server server_action];
  unfold ExpectReadZeroBytes_server_action;
  unfold evaluate_expectations_resume, handle_client_connection;
  cbn [evaluator_task server evaluate];
  unfold ExpectReadZeroBytes_evaluate, get_event, put_event.

(** X12.  The first step of [expect_disconnect] end to end.  The action of
    [ExpectReadZeroBytes] is running and its [evaluate] is waiting on an
    empty event queue, with no error so far.  A read that returns no byte,
    or a connection reset, leaves no error.  A read that returns data, a
    timeout, and a second connection attempt that arrives while the read is
    still pending each leave one error, and [interpret_error] gives each its
    own message. *)
Theorem expect_read_zero_end_to_end :
  forall (timeout : Timeout) (io : Transport) (timed_out : bool)
         (s : MockTcpServer) (n : nat),
    errors s = [] -> server_event_queue s = [] -> unfinished_tasks s = S n ->
    let sys := mkSystem s (Awaiting (ExpectReadZeroBytes timeout))
                        (Awaiting (ExpectReadZeroBytes timeout)) in
    (reader_call io s = Returns [] \/ reader_call io s = Raises ConnectionResetError ->
     exists sys',
       run [ExecutorResumes io; EvaluatorResumes timed_out] sys = Some sys'
       /\ errors (server sys') = [] /\ unfinished_tasks (server sys') = n
       /\ evaluator_task sys' = AtGet /\ server_action_task sys' = AtGet)
    /\ (forall data,
          reader_call io s = Returns data -> data <> [] ->
          exists sys',
            run [ExecutorResumes io; EvaluatorResumes timed_out] sys = Some sys'
            /\ errors (server sys')
               = [UnexpectedEventError ReadZeroBytes (BytesReadEvent data)]
            /\ forall repr_bytes str_exception,
                 interpret_error repr_bytes str_exception
                   (UnexpectedEventError ReadZeroBytes (BytesReadEvent data))
                 = ("Received unexpected data while waiting for client to disconnect. Data is "
                      ++ repr_bytes data ++ ".")%string)
    /\ (reader_call io s = Raises TimeoutError ->
        exists sys',
          run [ExecutorResumes io; EvaluatorResumes timed_out] sys = Some sys'
          /\ errors (server sys')
             = [UnexpectedEventError ReadZeroBytes TimeoutEvent]
          /\ forall repr_bytes str_exception,
               interpret_error repr_bytes str_exception
                 (UnexpectedEventError ReadZeroBytes TimeoutEvent)
               = "Timed out waiting for client to disconnect. Remember to call `writer.close()`."%string)
    /\ (connected s = true ->
        forall reader' writer',
        exists sys',
          run [ClientConnects reader' writer'; EvaluatorResumes timed_out] sys
          = Some sys'
          /\ errors (server sys')
             = [UnexpectedEventError ReadZeroBytes SecondClientConnectionAttempted]
          /\ server_action_task sys' = Awaiting (ExpectReadZeroBytes timeout)
          /\ reader (server sys') = reader s
          /\ forall repr_bytes str_exception,
               interpret_error repr_bytes str_exception
                 (UnexpectedEventError ReadZeroBytes SecondClientConnectionAttempted)
               = "While waiting for client to disconnect a second connection was attempted"%string).
Proof.
  intros timeout io timed_out s n He Hq Hn sys. subst sys.
  split; [|split; [|split]].
  - intros [Hr|Hr]; run_two_steps s; rewrite Hr; cbn [try_except List.length Nat.eqb];
      destruct s; simpl in *; subst; simpl;
      eexists; (split; [reflexivity|]); simpl; repeat split; reflexivity.
  - intros data Hr Hne. run_two_steps s. rewrite Hr.
    destruct data as [|b data]; [contradiction|].
    cbn [try_except List.length Nat.eqb].
    destruct s; simpl in *; subst; simpl.
    eexists. split; [reflexivity|]. simpl. split; reflexivity.
  - intros Hr. run_two_steps s. rewrite Hr. cbn [try_except].
    destruct s; simpl in *; subst; simpl.
    eexists. split; [reflexivity|]. simpl. split; reflexivity.
  - intros Hc reader' writer'. run_two_steps s. rewrite Hc.
    destruct s; simpl in *; subst; simpl.
    eexists. split; [reflexivity|]. simpl. repeat split; reflexivity.
Qed.

Lemma expect_read_zero_end_to_end_witness :
  exists sys',
    run [ClientConnects 3 4; EvaluatorResumes false]
      (mkSystem (set_expecations_queue [] 3 (set_connection 1 2 new_server))
                (Awaiting (ExpectReadZeroBytes 1%Z))
                (Awaiting (ExpectReadZeroBytes 1%Z)))
    = Some sys'
    /\ errors (server sys')
       = [UnexpectedEventError ReadZeroBytes SecondClientConnectionAttempted].
Proof.
  destruct (expect_read_zero_end_to_end 1%Z (mkTransport (Returns []) (Returns tt))
              false (set_expecations_queue [] 3 (set_connection 1 2 new_server)) 2
              eq_refl eq_refl eq_refl) as (_ & _ & _ & H).
  destruct (H eq_refl 3 4) as (sys' & Hrun & Herr & _).
  exists sys'. split; [exact Hrun | exact Herr].
Defined.

Lemma run_cons : forall l ls sys sys1 r,
  step l sys = Some sys1 -> run ls sys1 = r -> run (l :: ls) sys = r.
Proof. intros l ls sys sys1 r H1 H2. simpl. now rewrite H1. Qed.

(** X13.  A clean disconnect passes.  On an idle, connected engine with no
    error, whose peer has read all that was sent and has called
    [wait_closed], [expect_disconnect] with a positive timeout followed by
    the turns of the two
    tasks, with the read of the first step returning no byte (or meeting a
    connection reset), processes the three steps without recording an
    error: the queues are empty again, the counter is back to zero and
    [join] returns. *)
Theorem clean_disconnect_passes :
  forall (repr_bytes : bytes -> string) (str_exception : PyException -> string)
         (timeout : Timeout) (io : Transport) (b1 b2 b3 : bool)
         (s : MockTcpServer) (stream : Stream),
    (0 < timeout)%Z ->
    stopped s = false -> join_already_failed s = false -> errors s = [] ->
    server_event_queue s = [] -> server_actions s = [] ->
    expecations_queue s = [] -> unfinished_tasks s = 0 ->
    reader s = Some stream ->
    client_called_writer_waited_closed s = true ->
    data_read_by_client s = data_sent_from_server s ->
    read_result io = Returns [] \/ read_result io = Raises ConnectionResetError ->
    exists sys',
      run [CallExpectDisconnect timeout;
           EvaluatorGets; ExecutorGets; ExecutorResumes io; EvaluatorResumes b1;
           EvaluatorGets; EvaluatorResumes b2;
           EvaluatorGets; ExecutorGets; ExecutorResumes io;
           ExecutorGets; ExecutorResumes io; EvaluatorResumes b3]
        (mkSystem s AtGet AtGet) = Some sys'
      /\ errors (server sys') = []
      /\ all_done sys'
      /\ expecations_queue (server sys') = []
      /\ server_event_queue (server sys') = []
      /\ join repr_bytes str_exception (server sys') = JoinReturned (server sys').
Proof.
  intros repr_bytes str_exception timeout io b1 b2 b3 s stream
    Ht Hs Hj He Hq Ha Hx Hn Hr Hl Hd Hio.
  destruct timeout as [|p|p]; try lia. clear Ht.
  exists (mkSystem s AtGet AtGet).
  split.
  - destruct s as [c0 e0 j0 s0 q0 a0 x0 n0 r0 w0 l0 dr ds];
      simpl in Hs, Hj, He, Hq, Ha, Hx, Hn, Hr, Hl, Hd; subst.
    destruct io as [rr wr]. simpl in Hio.
    destruct Hio as [-> | ->];
      (do 11 (eapply run_cons; [vm_compute; reflexivity|]);
       (eapply run_cons;
        [ unfold step, execute_server_actions_resume;
          cbn [server_action_task server server_action];
          rewrite ExpectClientReadAllSentBytes_server_action_body;
          unfold compare_ledgers;
          cbn [data_read_by_client data_sent_from_server];
          rewrite bytes_eqb_refl; reflexivity |]);
       (eapply run_cons; [vm_compute; reflexivity|]);
       reflexivity).
  - unfold all_done, join. cbn [server server_action_task].
    rewrite He, Hn, Hj, Ha, Hx, Hq. simpl. repeat split; reflexivity.
Qed.

Lemma clean_disconnect_passes_witness :
  exists sys',
    run [CallExpectDisconnect 1%Z;
         EvaluatorGets; ExecutorGets;
         ExecutorResumes (mkTransport (Returns []) (Returns tt));
         EvaluatorResumes false;
         EvaluatorGets; EvaluatorResumes false;
         EvaluatorGets; ExecutorGets;
         ExecutorResumes (mkTransport (Returns []) (Returns tt));
         ExecutorGets; ExecutorResumes (mkTransport (Returns []) (Returns tt));
         EvaluatorResumes false]
      (mkSystem (client_writer_wait_closed (set_connection 1 2 new_server))
                AtGet AtGet) = Some sys'
    /\ errors (server sys') = []
    /\ join (fun _ => ""%string) (fun _ => ""%string) (server sys')
       = JoinReturned (server sys').
Proof.
  destruct (clean_disconnect_passes (fun _ => ""%string) (fun _ => ""%string) 1%Z
              (mkTransport (Returns []) (Returns tt)) false false false
              (client_writer_wait_closed (set_connection 1 2 new_server)) 1
              eq_refl
              eq_refl eq_refl eq_refl eq_refl eq_refl eq_refl eq_refl eq_refl
              eq_refl eq_refl (or_introl eq_refl))
    as (sys' & Hrun & Herr & _ & _ & _ & Hjoin).
  exists sys'. split; [exact Hrun|]. split; [exact Herr | exact Hjoin].
Defined.

(** ** Teardown by the factory *)

Lemma expect_disconnect_not_stopped : forall timeout s,
  stopped s = false ->
  fst (expect_disconnect timeout s) = Returns tt
  /\ expecations_queue (snd (expect_disconnect timeout s))
     = expecations_queue s
         ++ [ExpectReadZeroBytes timeout;
             ExpectClientCalledWriterWaitClosed timeout;
             ExpectClientReadAllSentBytes timeout]
  /\ unfinished_tasks (snd (expect_disconnect timeout s)) = 3 + unfinished_tasks s
  /\ join_already_failed (snd (expect_disconnect timeout s)) = join_already_failed s.
Proof.
  intros timeout s Hs. unfold expect_disconnect, check_not_stopped. rewrite Hs.
  destruct s; simpl. rewrite <- !app_assoc. auto.
Qed.

(** X14.  What the teardown of the fixture does with one server.  When a
    [join] of the server has already failed, nothing is declared and the
    [stop] returns at once without raising, so the failure is not reported
    a second time.  When the test has stopped the server itself and no
    [join] has failed, the [expect_disconnect] of the teardown raises
    ["Fixture is stopped"], and that is what the factory records.
    Otherwise the three steps of [expect_disconnect(1)] are queued and the
    [stop] is suspended until they are processed. *)
Theorem factory_stop_server_cases :
  forall (repr_bytes : bytes -> string) (str_exception : PyException -> string)
         (sys : System),
    (join_already_failed (server sys) = true ->
     (forall e, evaluator_task sys = Terminated e -> e = CancelledError) ->
     (forall e, server_action_task sys = Terminated e -> e = CancelledError) ->
     factory_stop_server repr_bytes str_exception sys
     = Done (Returns tt,
             mkSystem (set_stopped true (server sys))
                      (Terminated CancelledError) (Terminated CancelledError)))
    /\ (join_already_failed (server sys) = false ->
        stopped (server sys) = true ->
        factory_stop_server repr_bytes str_exception sys
        = Done (Raises (PlainException "Fixture is stopped"), sys))
    /\ (join_already_failed (server sys) = false ->
        stopped (server sys) = false ->
        factory_stop_server repr_bytes str_exception sys = Pending
        /\ expecations_queue (snd (expect_disconnect 1%Z (server sys)))
           = expecations_queue (server sys)
               ++ [ExpectReadZeroBytes 1%Z;
                   ExpectClientCalledWriterWaitClosed 1%Z;
                   ExpectClientReadAllSentBytes 1%Z]).
Proof.
  intros repr_bytes str_exception sys.
  unfold factory_stop_server. split; [|split].
  - intros Hf Hev Hex. rewrite Hf.
    unfold stop, join, stop_finally. rewrite Hf.
    cbn [server evaluator_task server_action_task].
    assert (H1 : cancel_and_await (evaluator_task sys)
                 = Returns (Terminated CancelledError)).
    { destruct (evaluator_task sys) as [| |e]; try reflexivity.
      now rewrite (Hev e eq_refl). }
    assert (H2 : cancel_and_await (server_action_task sys)
                 = Returns (Terminated CancelledError)).
    { destruct (server_action_task sys) as [| |e]; try reflexivity.
      now rewrite (Hex e eq_refl). }
    now rewrite H1, H2.
  - intros Hf Hs. rewrite Hf. unfold expect_disconnect, check_not_stopped.
    rewrite Hs. now destruct sys.
  - intros Hf Hs. rewrite Hf.
    destruct (expect_disconnect_not_stopped 1%Z (server sys) Hs) as (E & Q & N & F).
    split; [|exact Q].
    destruct (expect_disconnect 1%Z (server sys)) as [r s1]. cbn [fst snd] in *.
    subst r. unfold stop, join. cbn [server with_server].
    now rewrite F, Hf, N.
Qed.

Lemma factory_stop_server_cases_witness :
  exists sys1,
    stop (fun _ => ""%string) (fun _ => ""%string) start = Done (Returns tt, sys1)
    /\ factory_stop_server (fun _ => ""%string) (fun _ => ""%string) sys1
       = Done (Raises (PlainException "Fixture is stopped"), sys1).
Proof.
  eexists. split; [vm_compute; reflexivity|].
  apply factory_stop_server_cases; reflexivity.
Defined.

(** ** The ledger of read bytes *)

Lemma step_read : forall l sys sys',
  step l sys = Some sys' ->
  data_read_by_client (server sys')
  = data_read_by_client (server sys) ++ List.concat (client_reads l sys).
Proof.
  intros l [s ev ex] sys' H. unfold client_reads.
  destruct l; unfold_step H; break_step H; use_effects s;
    destruct s; simpl; rewrite ?app_nil_r; reflexivity.
Qed.

(** X15.  [data_read_by_client] is the concatenation, in order, of what the
    patched [read] of the peer returned: along every run the ledger grows
    by exactly the data of the reads of the peer, and no declaration, no
    connection and no turn of either task touches it. *)
Theorem read_ledger_accumulates :
  forall (ls : list Label) (sys sys' : System),
    run ls sys = Some sys' ->
    data_read_by_client (server sys')
    = data_read_by_client (server sys) ++ List.concat (observe client_reads ls sys).
Proof.
  induction ls as [|l ls IH]; intros sys sys' Hrun; simpl in Hrun |- *.
  - injection Hrun as <-. now rewrite app_nil_r.
  - destruct (step l sys) as [sys1|] eqn:S1; [|discriminate].
    rewrite (IH _ _ Hrun), (step_read _ _ _ S1), concat_app, app_assoc.
    reflexivity.
Qed.

Lemma read_ledger_accumulates_witness :
  exists sys',
    run [ClientConnects 1 2; ClientReads ["a"%byte]; CallSendBytes ["z"%byte];
         EvaluatorGets; ClientReads ["b"%byte; "c"%byte]] start = Some sys'
    /\ data_read_by_client (server sys') = ["a"%byte; "b"%byte; "c"%byte].
Proof.
  destruct (run [ClientConnects 1 2; ClientReads ["a"%byte]; CallSendBytes ["z"%byte];
                 EvaluatorGets; ClientReads ["b"%byte; "c"%byte]] start)
    as [sys'|] eqn:Hrun; [|cbv in Hrun; discriminate Hrun].
  exists sys'. split; [reflexivity|].
  rewrite (read_ledger_accumulates _ _ _ Hrun). vm_compute. reflexivity.
Defined.

(** ** Running the tasks to completion *)

(** Every turn of a task uses up some of the work that is left. *)
Lemma task_turn_work_left : forall l sys sys',
  is_task_turn l = true ->
  step l sys = Some sys' ->
  work_left sys' < work_left sys.
Proof.
  intros l [s ev ex] sys' Hl H. unfold work_left.
  destruct l; try discriminate Hl; unfold_step H; break_step H; use_effects s;
    destruct s; simpl in *; subst; simpl; rewrite ?length_app; simpl; lia.
Qed.

(** What the peer does leaves the work as it is. *)
Lemma peer_work_left : forall l sys sys',
  match l with
  | ClientConnects _ _ | ClientReads _ | ClientWaitsClosed => True
  | _ => False
  end ->
  step l sys = Some sys' ->
  work_left sys' = work_left sys.
Proof.
  intros l [s ev ex] sys' Hl H. unfold work_left.
  destruct l; try contradiction; unfold_step H; break_step H;
    destruct s; reflexivity.
Qed.

Lemma events_to_come_app : forall (l1 l2 : list Expectation),
  List.length (filter waits_for_event (l1 ++ l2))
  = List.length (filter waits_for_event l1) + List.length (filter waits_for_event l2).
Proof. intros. now rewrite filter_app, length_app. Qed.

Ltac use_results s :=
  try match goal with
      | Ac : server_action ?a ?io s = (_, _) |- _ =>
          let R := fresh "R" in
          pose proof (server_action_result a io s) as R;
          rewrite Ac in R; cbn [fst snd] in R
      end;
  use_effects s.

Lemma step_executor_stays_terminated : forall l sys sys' e,
  step l sys = Some sys' ->
  server_action_task sys = Terminated e ->
  server_action_task sys' = Terminated e.
Proof.
  intros l [s ev ex] sys' e H Hx. cbn [server_action_task] in Hx. subst ex.
  destruct l; unfold_step H; break_step H; reflexivity.
Qed.

Lemma step_pipeline_invariant : forall l sys sys',
  step l sys = Some sys' ->
  pipeline_invariant sys -> pipeline_invariant sys'.
Proof.
  intros l sys sys' H [[e He]|Inv].
  - left. exists e. eapply step_executor_stays_terminated; eauto.
  - destruct sys as [s ev ex]. unfold pipeline_invariant, events_to_come in *.
    cbn [server evaluator_task server_action_task] in *.
    destruct l; unfold_step H; break_step H; use_results s;
      try (left; eexists; reflexivity);
      right; cbn [server evaluator_task server_action_task];
      intros Herr e0 Hev Hw;
      try discriminate Hev; try discriminate Herr;
      repeat match goal with
             | R : _ /\ _ |- _ => destruct R
             end;
      subst;
      destruct s; simpl in *; subst; simpl in *;
      try discriminate;
      try (exfalso;
           match goal with
           | Hnil : _ ++ [_] = [] |- _ =>
               apply app_eq_nil in Hnil; destruct Hnil; discriminate
           end);
      try (injection Hev as <-);
      rewrite ?length_app, ?events_to_come_app in *; simpl in *;
      try rewrite Hw in *; simpl in *;
      try (specialize (Inv eq_refl _ eq_refl Hw));
      repeat match goal with
             | I : context [if waits_for_event ?a then _ else _] |- _ =>
                 destruct (waits_for_event a) eqn:?
             | |- context [if waits_for_event ?a then _ else _] =>
                 destruct (waits_for_event a) eqn:?
             end;
      simpl in *; try discriminate; try lia.
Qed.

Lemma run_pipeline_invariant : forall ls sys sys',
  run ls sys = Some sys' ->
  pipeline_invariant sys -> pipeline_invariant sys'.
Proof.
  induction ls as [|l ls IH]; intros sys sys' H Inv; simpl in H.
  - now injection H as <-.
  - destruct (step l sys) as [sys1|] eqn:S1; [|discriminate].
    eapply IH; eauto. eapply step_pipeline_invariant; eauto.
Qed.

Lemma reachable_pipeline_invariant : forall sys,
  reachable sys -> pipeline_invariant sys.
Proof.
  intros sys [ls H]. eapply run_pipeline_invariant; eauto.
  right. intros _ e He. discriminate He.
Qed.

(** With a transport that raises only [Exception]s, an action that raises
    raises an [Exception]. *)
Lemma server_action_raises_exception : forall a io s e,
  raises_only_exceptions io = true ->
  fst (server_action a io s) = Raises e ->
  is_Exception e = true.
Proof.
  intros a io s e Hio. unfold raises_only_exceptions in Hio.
  destruct a; simpl; unfold_actions; unfold reader_call; simpl;
    try discriminate.
  - destruct (reader s); [|intro H; injection H as <-; reflexivity].
    destruct (read_result io) as [?|x]; [discriminate|].
    destruct x; simpl in *; intro H; try discriminate; injection H as <-;
      try reflexivity; try exact Hio.
  - destruct (reader s); [|intro H; injection H as <-; reflexivity].
    destruct (read_result io) as [[|? ?]|x]; try discriminate.
    destruct x; simpl in *; intro H; try discriminate; injection H as <-;
      try reflexivity; try exact Hio.
  - destruct (bytes_eqb _ _); [discriminate|].
    destruct (startswith _ _); [discriminate|].
    intro H. injection H as <-. reflexivity.
  - destruct (writer_call io s); discriminate.
Qed.

(** A turn of the tasks with such a transport does not end the executor. *)
Lemma task_turn_executor_alive : forall transport sys l sys',
  raises_only_exceptions (transport sys) = true ->
  task_turn transport sys = Some l ->
  step l sys = Some sys' ->
  (forall e, server_action_task sys <> Terminated e) ->
  forall e, server_action_task sys' <> Terminated e.
Proof.
  intros transport sys l sys' Hio Ht Hs Halive.
  unfold task_turn in Ht.
  destruct (step EvaluatorGets sys) as [x1|] eqn:S1.
  { injection Ht as <-. destruct sys as [s ev ex].
    unfold_step Hs. break_step Hs; cbn [server_action_task]; exact Halive. }
  destruct (step (EvaluatorResumes true) sys) as [x2|] eqn:S2.
  { injection Ht as <-. destruct sys as [s ev ex].
    unfold_step Hs. break_step Hs; cbn [server_action_task]; exact Halive. }
  destruct (step ExecutorGets sys) as [x3|] eqn:S3.
  { injection Ht as <-. destruct sys as [s ev ex].
    unfold_step Hs. break_step Hs; cbn [server_action_task]; discriminate. }
  destruct (step (ExecutorResumes (transport sys)) sys) as [x4|] eqn:S4;
    [|discriminate].
  injection Ht as <-. destruct sys as [s ev ex].
  set (io := transport (mkSystem s ev ex)) in *.
  unfold step, execute_server_actions_resume in Hs.
  cbn [server_action_task server evaluator_task] in Hs.
  destruct ex as [|a|x]; try discriminate.
  pose proof (server_action_raises_exception a io s) as Hexc.
  destruct (server_action a io s) as [[[?|]|e0] s1]; cbn [fst] in Hexc.
  - injection Hs as <-. discriminate.
  - injection Hs as <-. discriminate.
  - rewrite (Hexc e0 Hio eq_refl) in Hs. injection Hs as <-. discriminate.
Qed.

(** An [evaluate] whose timer has expired is suspended only on an empty
    event queue, in a step that waits for an event. *)
Lemma evaluate_pending : forall e s,
  evaluate e true s = Pending ->
  waits_for_event e = true /\ server_event_queue s = [].
Proof.
  intros e s. destruct e; simpl;
    unfold ExpectConnect_evaluate, ExpectClientCalledWriterWaitClosed_evaluate,
      ExpectBytes_evaluate, ExpectReadZeroBytes_evaluate,
      ExpectClientReadAllSentBytes_evaluate, SendBytes_evaluate, get_event;
    try (destruct (expires_at_once timeout); [discriminate|]);
    try (destruct (client_called_writer_waited_closed s); discriminate);
    try discriminate;
    destruct (server_event_queue s); try discriminate; auto.
Qed.

(** Progress: when no task can take a turn, everything has been
    processed. *)
Lemma no_task_turn_all_done : forall transport sys,
  scheduler_invariant sys ->
  pipeline_invariant sys ->
  (forall e, server_action_task sys <> Terminated e) ->
  task_turn transport sys = None ->
  all_done sys.
Proof.
  intros transport [s ev ex] Inv PInv Halive Ht.
  unfold task_turn in Ht.
  destruct (step EvaluatorGets _) eqn:S1; [discriminate|].
  destruct (step (EvaluatorResumes true) _) eqn:S2; [discriminate|].
  destruct (step ExecutorGets _) eqn:S3; [discriminate|].
  destruct (step (ExecutorResumes _) _) eqn:S4; [discriminate|].
  clear Ht.
  assert (Hex : ex = AtGet /\ server_actions s = []).
  { destruct ex as [|a|x].
    - split; [reflexivity|].
      unfold step, execute_server_actions_get in S3.
      cbn [server_action_task server] in S3.
      destruct (server_actions s); [reflexivity|].
      destruct (errors _); discriminate.
    - exfalso. unfold step, execute_server_actions_resume in S4.
      cbn [server_action_task server] in S4.
      destruct (server_action a _ s) as [[[?|]|e0] s1]; try discriminate.
      destruct (is_Exception e0); discriminate.
    - exfalso. now apply (Halive x). }
  destruct Hex as [-> Ha].
  unfold scheduler_invariant in Inv. cbn [server evaluator_task] in Inv.
  destruct ev as [|e|x]; [| |destruct Inv].
  - unfold step, evaluate_expectations_get in S1.
    cbn [evaluator_task server] in S1.
    destruct (expecations_queue s) eqn:Q.
    + unfold all_done. cbn [server server_action_task]. auto.
    + exfalso. destruct (errors _); [discriminate|].
      unfold evaluator_task_done in S1. destruct (task_done _); discriminate.
  - exfalso. unfold step, evaluate_expectations_resume in S2.
    cbn [evaluator_task server] in S2.
    destruct (evaluate e true s) as [|[[u|x] s1]] eqn:Ev.
    + apply evaluate_pending in Ev. destruct Ev as [Hw Hq].
      destruct Inv as [_ Inv2].
      destruct PInv as [[x Hx]|PInv]; [discriminate Hx|].
      unfold events_to_come in PInv.
      cbn [server evaluator_task server_action_task] in PInv.
      destruct (errors s) eqn:He.
      * specialize (PInv eq_refl e eq_refl Hw).
        rewrite Hq, Ha in PInv. simpl in PInv. lia.
      * apply (Inv2 Hw); [discriminate | exact Hq].
    + unfold evaluator_task_done in S2. destruct (task_done _); discriminate.
    + destruct (is_Exception x); [|discriminate].
      unfold evaluator_task_done in S2. destruct (task_done _); discriminate.
Qed.

Lemma task_turn_enabled : forall transport sys l,
  task_turn transport sys = Some l ->
  is_task_turn l = true /\ exists sys', step l sys = Some sys'.
Proof.
  intros transport sys l H. unfold task_turn in H.
  destruct (step EvaluatorGets sys) as [x1|] eqn:S1.
  { injection H as <-. split; [reflexivity | eauto]. }
  destruct (step (EvaluatorResumes true) sys) as [x2|] eqn:S2.
  { injection H as <-. split; [reflexivity | eauto]. }
  destruct (step ExecutorGets sys) as [x3|] eqn:S3.
  { injection H as <-. split; [reflexivity | eauto]. }
  destruct (step (ExecutorResumes (transport sys)) sys) as [x4|] eqn:S4;
    [|discriminate].
  injection H as <-. split; [reflexivity | eauto].
Qed.

(** Whatever the order of the turns of the tasks, and whatever the
    transport does, there are no more of them than there is work left. *)
Lemma task_turns_work_left : forall turns sys sys',
  forallb is_task_turn turns = true ->
  run turns sys = Some sys' ->
  work_left sys' + List.length turns <= work_left sys.
Proof.
  induction turns as [|l turns IH]; intros sys sys' Hl H; simpl in H, Hl.
  - injection H as <-. simpl. lia.
  - apply andb_true_iff in Hl. destruct Hl as [Hl Hls].
    destruct (step l sys) as [sys1|] eqn:S1; [|discriminate].
    pose proof (task_turn_work_left _ _ _ Hl S1).
    pose proof (IH _ _ Hls H). simpl. lia.
Qed.

(** The turns of the tasks, with a transport that raises only
    [Exception]s, come to an end with everything processed. *)
Lemma completion_all_done : forall transport,
  (forall s, raises_only_exceptions (transport s) = true) ->
  forall fuel sys,
    work_left sys <= fuel ->
    scheduler_invariant sys ->
    pipeline_invariant sys ->
    (forall e, server_action_task sys <> Terminated e) ->
    exists sys',
      run (completion fuel transport sys) sys = Some sys'
      /\ forallb is_task_turn (completion fuel transport sys) = true
      /\ all_done sys'.
Proof.
  intros transport Hio. induction fuel as [|fuel IH];
    intros sys Hw Inv PInv Halive.
  - exists sys. split; [reflexivity|]. split; [reflexivity|].
    destruct sys as [s ev ex]. unfold work_left in Hw.
    unfold scheduler_invariant in Inv.
    cbn [server evaluator_task server_action_task] in *.
    destruct ev as [|e|x]; [| lia | destruct Inv].
    destruct ex as [|a|x]; [| lia | exfalso; now apply (Halive x)].
    unfold all_done. cbn [server server_action_task].
    destruct (expecations_queue s); [|simpl in Hw; lia].
    destruct (server_actions s); [|simpl in Hw; lia].
    auto.
  - simpl. destruct (task_turn transport sys) as [l|] eqn:Ht.
    + destruct (task_turn_enabled _ _ _ Ht) as [Hl [sys1 S1]].
      destruct (IH sys1) as (sys' & Hrun & Hall & Hdone).
      * pose proof (task_turn_work_left _ _ _ Hl S1). lia.
      * eapply step_scheduler_invariant; eauto.
      * eapply step_pipeline_invariant; eauto.
      * eapply task_turn_executor_alive; eauto.
      * exists sys'. simpl. rewrite S1. simpl. rewrite S1, Hl, Hall. auto.
    + exists sys. split; [reflexivity|]. split; [reflexivity|].
      eapply no_task_turn_all_done; eauto.
Qed.

(** C8, amended.  Take any run of a started engine.  Whatever the order
    of the turns the two tasks take from then on, and whatever the
    transport does, there are no more turns than there is work left (six
    for a queued step, three for a queued action, one for a suspended
    task); and when neither task can move any more, a pending [evaluate]
    completing at the latest when its timer expires, every declared step
    has been processed and every action run, so that [join] no longer
    waits, unless the executor has been ended by a cancelled read.  One
    such schedule is [completion]: when the executor has not been ended
    and the transport cancels no read, it runs to the end.  On every run
    that has ended in this way without an error recorded, [join] returns
    without raising, the [SendBytes] actions performed are those declared
    by [send_bytes], in the order of their declaration, and the ledger of
    sent bytes is the concatenation, in that order, of the payloads whose
    write returned; in particular, when no write raised, it is the
    concatenation of all the declared payloads. *)
Theorem sent_bytes_ledger :
  forall (repr_bytes : bytes -> string) (str_exception : PyException -> string)
         (ls : list Label) (sys : System),
    run ls start = Some sys ->
    ((forall e, server_action_task sys <> Terminated e) ->
     forall transport : System -> Transport,
       (forall s, raises_only_exceptions (transport s) = true) ->
       let turns := completion (work_left sys) transport sys in
       exists sys',
         run (ls ++ turns) start = Some sys'
         /\ forallb is_task_turn turns = true
         /\ all_done sys'
         /\ join repr_bytes str_exception (server sys') <> JoinWaiting
         /\ (errors (server sys') = [] ->
             join repr_bytes str_exception (server sys')
             = JoinReturned (server sys')
             /\ map fst (performed_sends (ls ++ turns) start)
                = declared_sends (ls ++ turns) start
             /\ data_sent_from_server (server sys')
                = List.concat (written (performed_sends (ls ++ turns) start))))
    /\ (forall turns sys',
          forallb is_task_turn turns = true ->
          run turns sys = Some sys' ->
          work_left sys' + List.length turns <= work_left sys
          /\ ((forall e, server_action_task sys' <> Terminated e) ->
              forall transport : System -> Transport,
                task_turn transport sys' = None ->
                all_done sys'
                /\ join repr_bytes str_exception (server sys') <> JoinWaiting))
    /\ (all_done sys ->
        errors (server sys) = [] ->
        join repr_bytes str_exception (server sys) = JoinReturned (server sys)
        /\ map fst (performed_sends ls start) = declared_sends ls start
        /\ data_sent_from_server (server sys)
           = List.concat (written (performed_sends ls start))
        /\ (forallb snd (performed_sends ls start) = true ->
            data_sent_from_server (server sys)
            = List.concat (declared_sends ls start))).
Proof.
  assert (Hfinal : forall repr_bytes str_exception ls sys,
             run ls start = Some sys ->
             all_done sys ->
             errors (server sys) = [] ->
             join repr_bytes str_exception (server sys) = JoinReturned (server sys)
             /\ map fst (performed_sends ls start) = declared_sends ls start
             /\ data_sent_from_server (server sys)
                = List.concat (written (performed_sends ls start))).
  { intros repr_bytes str_exception ls sys Hrun Hdone Herr.
    assert (Hsends : map fst (performed_sends ls start) = declared_sends ls start).
    { pose proof (run_sends _ _ _ Hrun Herr) as H.
      rewrite all_done_no_pending in H.
      - now rewrite app_nil_r in H.
      - apply reachable_scheduler_invariant. now exists ls.
      - exact Hdone. }
    split; [|split; [exact Hsends|]].
    - unfold join.
      rewrite (run_join_already_failed _ _ _ Hrun). simpl.
      destruct Hdone as (-> & _). simpl. now rewrite Herr.
    - now rewrite (run_sent _ _ _ Hrun). }
  assert (Hwaits : forall repr_bytes str_exception sys,
             all_done sys ->
             join repr_bytes str_exception (server sys) <> JoinWaiting).
  { intros repr_bytes str_exception sys (Hn & _). unfold join. rewrite Hn.
    destruct (join_already_failed _); [discriminate|]. simpl.
    destruct (errors _); discriminate. }
  intros repr_bytes str_exception ls sys Hrun.
  split; [|split].
  - intros Halive transport Hio turns.
    destruct (completion_all_done transport Hio (work_left sys) sys)
      as (sys' & Hturns & Htask & Hdone).
    + apply le_n.
    + apply reachable_scheduler_invariant. now exists ls.
    + apply reachable_pipeline_invariant. now exists ls.
    + exact Halive.
    + assert (Hrun' : run (ls ++ turns) start = Some sys').
      { rewrite run_app, Hrun. exact Hturns. }
      exists sys'. split; [exact Hrun'|]. split; [exact Htask|].
      split; [exact Hdone|]. split.
      * now apply Hwaits.
      * intro Herr. apply (Hfinal _ _ _ _ Hrun' Hdone Herr).
  - intros turns sys' Hl Hturns.
    split; [now apply task_turns_work_left|].
    intros Halive transport Hnone.
    assert (Hr : reachable sys').
    { exists (ls ++ turns). now rewrite run_app, Hrun. }
    assert (Hdone : all_done sys').
    { apply (no_task_turn_all_done transport); auto.
      - now apply reachable_scheduler_invariant.
      - now apply reachable_pipeline_invariant. }
    split; [exact Hdone|]. now apply Hwaits.
  - intros Hdone Herr.
    destruct (Hfinal repr_bytes str_exception _ _ Hrun Hdone Herr)
      as (Hj & Hsends & Hsent).
    split; [exact Hj|]. split; [exact Hsends|]. split; [exact Hsent|].
    intro Hall. rewrite Hsent, <- Hsends. unfold written. f_equal.
    clear - Hall. induction (performed_sends ls start) as [|[d b] l IH]; simpl in *.
    + reflexivity.
    + apply andb_true_iff in Hall. destruct Hall as [-> Hl]. simpl.
      now rewrite IH.
Qed.

Lemma sent_bytes_ledger_witness :
  let ls := [ClientConnects 1 2; CallExpectConnect 1%Z; CallSendBytes ["a"%byte];
             CallSendBytes ["b"%byte; "c"%byte]] in
  let transport := fun _ : System => mkTransport (Returns []) (Returns tt) in
  exists sys,
    run ls start = Some sys
    /\ exists sys',
         run (ls ++ completion (work_left sys) transport sys) start = Some sys'
         /\ all_done sys'
         /\ join (fun _ => ""%string) (fun _ => ""%string) (server sys')
            = JoinReturned (server sys')
         /\ data_sent_from_server (server sys') = ["a"%byte; "b"%byte; "c"%byte].
Proof.
  intros ls transport.
  eexists. split; [vm_compute; reflexivity|].
  match goal with
  | |- exists sys', run (_ ++ completion (work_left ?sys) _ _) _ = _ /\ _ =>
      assert (Hrun : run ls start = Some sys) by (vm_compute; reflexivity);
      destruct (sent_bytes_ledger (fun _ => ""%string) (fun _ => ""%string)
                  ls sys Hrun) as [Hlive _];
      destruct (Hlive ltac:(discriminate) transport ltac:(reflexivity))
        as (sys' & Hrun' & _ & Hdone & _ & Hok)
  end.
  exists sys'. split; [exact Hrun'|]. split; [exact Hdone|].
  assert (Herr : errors (server sys') = []).
  { vm_compute in Hrun'. injection Hrun' as <-. reflexivity. }
  destruct (Hok Herr) as (Hjoin & _ & Hsent).
  split; [exact Hjoin|].
  rewrite Hsent. vm_compute. reflexivity.
Defined.
